(** * goapi: the request execution pipeline of [request.go]

    A shallow embedding of package [api]'s [Request] type: the fluent
    builder, the materialisation of a draft into an [*http.Request], the
    timeout-bounded call and the retry loop of [GET], followed by the
    properties of that code.

    Conventions.
    - A Go [error] result is an [option error]: [None] is the [nil] interface
      value, [Some e] a non-nil one.
    - A Go pointer result that may be [nil] is an [option].
    - A [*Request] is modelled by the value it points to; the builders return
      the updated value.  The one pointer whose sharing matters, the
      [*Options] a request and its API hold, is a location in an explicit
      heap.
    - Go's standard library is not part of the package.  Its pure string
      functions with a short definition ([url.QueryEscape],
      [url.Values.Add/Encode], [http.Header.Set], [strconv]) are written out;
      the URL parser, the query parser, the header-key canonicaliser and
      [json.Marshal] are the fields of the class [GoLib]; the network is an
      oracle in the [World]. *)

From Stdlib Require Import ZArith Ascii String DecimalString.
From stdpp Require Import gmap strings list fin_maps sorting.

Open Scope Z_scope.

(** ** Typed values: [valueData] and [keyValuePair] *)

(** [type valueDataType int] with its three [iota] constants. *)
Inductive valueDataType := vdtString | vdtInt | vdtBool.

(** [type valueData struct { is; s; i; b }].  The source's field [is] is a
    keyword here, so the four fields carry the prefix [v_]. *)
Record valueData := mkValueData {
  v_is : valueDataType;
  v_s : string;
  v_i : Z;
  v_b : bool
}.

(** The zero value of [valueData], as [reqQuery{}] creates it. *)
Definition valueData_zero : valueData :=
  {| v_is := vdtString; v_s := ""; v_i := 0; v_b := false |}.

(** [strconv.Itoa]: the decimal digits, with a leading minus sign. *)
Definition strconv_Itoa (i : Z) : string := NilZero.string_of_int (Z.to_int i).

(** [strconv.FormatBool]. *)
Definition strconv_FormatBool (b : bool) : string :=
  if b then "true" else "false".

(** [func (v valueData) string() string]. *)
Definition valueData_string (v : valueData) : string :=
  match v_is v with
  | vdtString => v_s v
  | vdtInt => strconv_Itoa (v_i v)
  | vdtBool => strconv_FormatBool (v_b v)
  end.

(** [type keyValuePair struct { key; value }]; [reqQuery], [reqHeader] and
    [reqBody] are three names of this one struct. *)
Record keyValuePair := mkKV { key : string; value : valueData }.

Abbreviation reqQuery := keyValuePair.
Abbreviation reqHeader := keyValuePair.
Abbreviation reqBody := keyValuePair.

(** ** Options, endpoints and the heap of [Options] cells *)

(** A heap location (a non-nil pointer). *)
Abbreviation loc := positive.

(** Modelled from the spec: the struct [Options] is declared outside
    [request.go]; the code reads its fields [timeout] (milliseconds; compared
    with [0] and converted to a [time.Duration]) and [retries] (a [uint], the
    type of the loop counter it is compared with). *)
Record Options := mkOptions { timeout : Z; retries : Z }.

(** Modelled from the spec: the parent API of an endpoint, of which the code
    uses the pointer [parent.Options] only ([apiOptions]; [None] is [nil]). *)
Record API := mkAPI { apiOptions : option loc }.

(** Modelled from the spec: [Endpoint] is declared outside [request.go]; the
    code uses [e.parent] and the method [e.URL()], whose result is the field
    [URL] here. *)
Record Endpoint := mkEndpoint { parent : API; URL : string }.

(** [type Request struct].  The field [Options] of the source is
    [reqOptions] (the name [Options] is the struct's); it is a pointer. *)
Record Request := mkRequest {
  endPoint : Endpoint;
  queries : list reqQuery;
  headers : list reqHeader;
  bodyKV : list reqBody;
  bodyTXT : string;
  hasBody : bool;
  reqOptions : option loc
}.

(** ** Responses and errors *)

(** Modelled from the spec: [Response] and [newResponse] are declared outside
    [request.go]; a response wraps the status code and the body text. *)
Record Response := mkResponse { Status : Z; Body : string }.

Definition newResponse (status : Z) (body : string) : Response :=
  {| Status := status; Body := body |}.

(** [http.StatusOK]. *)
Definition http_StatusOK : Z := 200.

(** The non-nil values of Go's [error] interface that the code produces.
    - [ErrTimeout]: the package's sentinel, declared outside [request.go].
    - [PackageError e]: the composite literal [&PackageError{e}], a non-nil
      pointer whatever [e] is, [nil] included.
    - [QueryError]: the result of [newQueryError], see below.
    - [Errorf msg e]: [fmt.Errorf(msg + ": %w", e)].
    - [LibError msg]: an error of the standard library (net/http, net/url,
      io, encoding/json). *)
#[warnings="-register-all"]
Inductive error :=
| ErrTimeout
| PackageError (inner : option error)
| QueryError (status : Z) (body : string) (req : Request)
| Errorf (msg : string) (wrapped : error)
| LibError (msg : string).

(** Modelled from the spec: [newQueryError] is declared outside
    [request.go]; by the spec the API error carries the status code, the body
    text and a reference to the originating request. *)
Definition newQueryError (rv : Response) (r : Request) : error :=
  QueryError (Status rv) (Body rv) r.

(** ** The standard library: [net/url]

    [url.QueryEscape] escapes every byte except the unreserved ones (letters,
    digits, [-], [_], [.], [~]); a space becomes [+], any other byte [%XX]
    with upper-case hexadecimal digits. *)

Definition byte_between (lo hi c : ascii) : bool :=
  (N_of_ascii lo <=? N_of_ascii c)%N && (N_of_ascii c <=? N_of_ascii hi)%N.

Definition isUnreserved (c : ascii) : bool :=
  byte_between "a" "z" c || byte_between "A" "Z" c || byte_between "0" "9" c
  || Ascii.eqb c "-" || Ascii.eqb c "_" || Ascii.eqb c "." || Ascii.eqb c "~".

(** [shouldEscape(c, encodeQueryComponent)]. *)
Definition shouldEscape (c : ascii) : bool := negb (isUnreserved c).

(** One digit of the table ["0123456789ABCDEF"]. *)
Definition upperhex (n : N) : ascii :=
  match String.get (N.to_nat n) "0123456789ABCDEF" with
  | Some c => c
  | None => "0"%char
  end.

Definition escapeByte (c : ascii) : string :=
  if Ascii.eqb c " " then "+"
  else if shouldEscape c then
    String "%" (String (upperhex (N.shiftr (N_of_ascii c) 4))
                 (String (upperhex (N.land (N_of_ascii c) 15)) ""))
  else String c "".

Fixpoint QueryEscape (s : string) : string :=
  match s with
  | EmptyString => ""
  | String c s' => escapeByte c +:+ QueryEscape s'
  end.

(** The order of [slices.Sort] on strings: byte-wise lexicographic. *)
Definition string_le (a b : string) : Prop := String.leb a b = true.

Global Instance string_le_dec a b : Decision (string_le a b).
Proof. unfold string_le. apply _. Defined.

(** [v[key]] on a [map[string][]string]: the nil slice for a missing key. *)
Definition Values_at (v : gmap string (list string)) (k : string) : list string :=
  default [] (v !! k).

(** [func (v Values) Add(key, value string)]:
    [v[key] = append(v[key], value)]. *)
Definition Values_Add (k val : string) (v : gmap string (list string))
  : gmap string (list string) :=
  <[k := Values_at v k ++ [val]]> v.

(** The keys of the map, sorted: the [keys] slice of [Encode] after
    [slices.Sort(keys)].  The keys of a map are distinct, so every sorting
    algorithm returns this list. *)
Definition Values_keys (v : gmap string (list string)) : list string :=
  merge_sort string_le (fst <$> map_to_list v).

(** The [key], [value] pairs in the order in which the two nested loops of
    [Encode] write them: by sorted key, and for one key in slice order. *)
Definition Values_pairs (v : gmap string (list string)) : list (string * string) :=
  flat_map (fun k => pair k <$> Values_at v k) (Values_keys v).

Definition encodePair (p : string * string) : string :=
  QueryEscape p.1 +:+ "=" +:+ QueryEscape p.2.

(** [func (v Values) Encode() string]: every pair as [key=value], escaped;
    an [&] is written before each pair but the first. *)
Definition Values_Encode (v : gmap string (list string)) : string :=
  String.concat "&" (encodePair <$> Values_pairs v).

(** A parsed [url.URL], cut where the code needs it: [u_head] is the
    rendering of scheme, authority and path, [u_frag] that of the fragment
    with its [#] (or the empty string). *)
Record url_URL := mkURL {
  u_head : string;
  ForceQuery : bool;
  RawQuery : string;
  u_frag : string
}.

(** [func (u *URL) String() string]. *)
Definition URL_String (u : url_URL) : string :=
  u_head u
  +:+ (if ForceQuery u || negb (String.eqb (RawQuery u) "")
       then "?" +:+ RawQuery u else "")
  +:+ u_frag u.

Definition set_RawQuery (q : string) (u : url_URL) : url_URL :=
  {| u_head := u_head u; ForceQuery := ForceQuery u; RawQuery := q;
     u_frag := u_frag u |}.

(** ** The standard library: [net/http] *)

(** [func (h Header) Set(key, value string)]:
    [h[CanonicalMIMEHeaderKey(key)] = []string{value}], with the
    canonicaliser as a parameter. *)
Definition Header_Set (canon : string -> string) (k val : string)
    (h : gmap string (list string)) : gmap string (list string) :=
  <[canon k := [val]]> h.

(** The fields of an [http.Request] that the package sets or reads.  [rBody]
    is [None] when no body is attached. *)
Record http_Request := mkHTTPRequest {
  Method : string;
  rURL : url_URL;
  Header : gmap string (list string);
  rBody : option string
}.

(** The third argument of [http.NewRequest], an [io.Reader]: the untyped
    [nil], or a [*strings.Reader], which is itself a nil pointer ([None]) or
    reads a string. *)
Inductive bodyArg :=
| NilReader
| StringsReader (p : option string).

(** The parts of the standard library taken as given: the URL parser behind
    [http.NewRequest], the query parser behind [URL.Query()], the
    canonicaliser of header keys, and [json.Marshal] on the values of
    type [any]. *)
Class GoLib := {
  url_Parse : string -> url_URL + error;
  url_ParseQuery : string -> gmap string (list string);
  CanonicalMIMEHeaderKey : string -> string;
  any : Type;
  json_Marshal : any -> string + error
}.

(** ** The world: heap, network oracle, counters *)

(** What one round trip does, seen from [callAPI]: [httpClient.Do] fails,
    reading the body fails after the status line arrived, or the server
    replied with a status code and a body. *)
Inductive RoundTrip :=
| DoFails (e : error)
| ReadFails (status : Z) (e : error)
| Replied (status : Z) (body : string).

(** The oracle's answer for one attempt: how long the attempt takes until its
    result is ready to be sent on the channel (nanoseconds), which case the
    [select] takes when both become ready at the same instant, and the round
    trip for the request that is sent. *)
Record Attempt := mkAttempt {
  latency : Z;
  timerWinsTie : bool;
  roundTrip : http_Request -> RoundTrip
}.

(** The state the code runs in.  [heap] holds the [Options] structs; [net]
    answers the attempts by number; [calls] counts the invocations of
    [callAPI] so far; [slept] adds up the [time.Sleep] milliseconds. *)
Record World := mkWorld {
  heap : gmap loc Options;
  net : nat -> Attempt;
  calls : nat;
  slept : Z
}.

(** How a call ends: it returns a value in a new world, it panics (a nil
    pointer is dereferenced), or the given fuel does not suffice. *)
Inductive result (A : Type) :=
| Done (a : A) (w : World)
| Panic
| OutOfFuel.
Arguments Done {A} a w.
Arguments Panic {A}.
Arguments OutOfFuel {A}.

Definition M (A : Type) : Type := World -> result A.

(** [M] is a monad; [x ← m; k] runs [m], then [k] in the world [m] left. *)
Global Instance M_ret : MRet M := fun A a w => Done a w.

Global Instance M_bind : MBind M := fun A B k m w =>
  match m w with
  | Done a w' => k a w'
  | Panic => Panic
  | OutOfFuel => OutOfFuel
  end.

(** A nil pointer dereference. *)
Definition panic {A} : M A := fun _ => Panic.

(** [*p] for a pointer to an [Options] struct. *)
Definition deref (p : option loc) : M Options :=
  fun w => match p ≫= (fun l => heap w !! l) with
           | Some o => Done o w
           | None => Panic
           end.

(** [&opt] for a local copy that escapes: a fresh cell holding [o]. *)
Definition alloc (o : Options) : M loc :=
  fun w => let l := fresh (dom (heap w)) in
           Done l {| heap := <[l := o]> (heap w); net := net w;
                     calls := calls w; slept := slept w |}.

(** [time.Sleep(ms * time.Millisecond)]. *)
Definition sleep (ms : Z) : M unit :=
  fun w => Done tt {| heap := heap w; net := net w; calls := calls w;
                      slept := slept w + ms |}.

(** Take the oracle's answer for the next attempt. *)
Definition nextAttempt : M Attempt :=
  fun w => Done (net w (calls w))
                {| heap := heap w; net := net w; calls := S (calls w);
                   slept := slept w |}.

(** Arithmetic of [int64] ([time.Duration]) and of [uint]. *)
Definition wrap_int64 (z : Z) : Z := (z + 2 ^ 63) mod 2 ^ 64 - 2 ^ 63.
Definition wrap_uint (z : Z) : Z := z mod 2 ^ 64.

(** ** The package: builder, materialiser, executor *)

Section Package.
Context `{GoLib}.

(** [func (e *Endpoint) NewRequest() *Request]: [opt := *e.parent.Options]
    copies the struct, [&opt] is a new cell. *)
Definition NewRequest (e : Endpoint) : M Request :=
  opt ← deref (apiOptions (parent e));
  l ← alloc opt;
  mret {| endPoint := e; queries := []; headers := []; bodyKV := [];
          bodyTXT := ""; hasBody := false; reqOptions := Some l |}.

Definition set_queries (qs : list reqQuery) (r : Request) : Request :=
  {| endPoint := endPoint r; queries := qs; headers := headers r;
     bodyKV := bodyKV r; bodyTXT := bodyTXT r; hasBody := hasBody r;
     reqOptions := reqOptions r |}.

Definition set_headers (hs : list reqHeader) (r : Request) : Request :=
  {| endPoint := endPoint r; queries := queries r; headers := hs;
     bodyKV := bodyKV r; bodyTXT := bodyTXT r; hasBody := hasBody r;
     reqOptions := reqOptions r |}.

(** [func (r *Request) AddQuery(key, value string) *Request]. *)
Definition AddQuery (k val : string) (r : Request) : Request :=
  let query := {| key := k;
                  value := {| v_is := vdtString; v_s := val;
                              v_i := v_i valueData_zero;
                              v_b := v_b valueData_zero |} |} in
  set_queries (queries r ++ [query]) r.

(** [func (r *Request) AddQueryBool(key string, value bool) *Request]. *)
Definition AddQueryBool (k : string) (val : bool) (r : Request) : Request :=
  let query := {| key := k;
                  value := {| v_is := vdtBool; v_s := v_s valueData_zero;
                              v_i := v_i valueData_zero; v_b := val |} |} in
  set_queries (queries r ++ [query]) r.

(** [func (r *Request) AddQueryInt(key string, value int) *Request]. *)
Definition AddQueryInt (k : string) (val : Z) (r : Request) : Request :=
  let query := {| key := k;
                  value := {| v_is := vdtInt; v_s := v_s valueData_zero;
                              v_i := val; v_b := v_b valueData_zero |} |} in
  set_queries (queries r ++ [query]) r.

(** [func (r *Request) AddHeader(key, value string) *Request]. *)
Definition AddHeader (k val : string) (r : Request) : Request :=
  let header := {| key := k;
                   value := {| v_is := vdtString; v_s := val;
                               v_i := v_i valueData_zero;
                               v_b := v_b valueData_zero |} |} in
  set_headers (headers r ++ [header]) r.

(** [func (r *Request) FormEncoded()]: the request after the call. *)
Definition FormEncoded (r : Request) : Request :=
  AddHeader "Content-Type" "application/x-www-form-urlencoded" r.

(** [func (r *Request) AddBodyKV(key, value string) *Request]. *)
Definition AddBodyKV (k val : string) (r : Request) : Request :=
  let body := {| key := k;
                 value := {| v_is := vdtString; v_s := val;
                             v_i := v_i valueData_zero;
                             v_b := v_b valueData_zero |} |} in
  {| endPoint := endPoint r; queries := queries r; headers := headers r;
     bodyKV := bodyKV r ++ [body]; bodyTXT := bodyTXT r; hasBody := true;
     reqOptions := reqOptions r |}.

(** [func (r *Request) SetBodyJSON(v any) *Request]: [None] is the [nil] it
    returns when [json.Marshal] fails, the request being left as it was. *)
Definition SetBodyJSON (v : any) (r : Request) : option Request :=
  match json_Marshal v with
  | inr _ => None
  | inl b =>
      Some {| endPoint := endPoint r; queries := queries r;
              headers := headers r; bodyKV := bodyKV r; bodyTXT := b;
              hasBody := true; reqOptions := reqOptions r |}
  end.

(** [http.NewRequest(method, url, body)] for the methods the package passes
    ([GET] and [POST], both valid): the URL is parsed; a body that is a nil
    [*strings.Reader] is not the nil interface, its length is asked for, and
    that call dereferences the nil pointer ([None]: the call panics). *)
Definition http_NewRequest (method url : string) (body : bodyArg)
  : option (http_Request + error) :=
  match url_Parse url with
  | inr e => Some (inr e)
  | inl u =>
      match body with
      | NilReader =>
          Some (inl {| Method := method; rURL := u; Header := ∅; rBody := None |})
      | StringsReader (Some s) =>
          Some (inl {| Method := method; rURL := u; Header := ∅; rBody := Some s |})
      | StringsReader None => None
      end
  end.

(** The loop [for _, qry := range r.queries { httpQuery.Add(...) }]. *)
Definition addQueries (qs : list reqQuery) (httpQuery : gmap string (list string))
  : gmap string (list string) :=
  foldl (fun q qry => Values_Add (key qry) (valueData_string (value qry)) q)
        httpQuery qs.

(** [func (r *Request) RawQueryURL() (string, error)]; [None] when
    [http.NewRequest] panics (it does not, see [RawQueryURL_returns]). *)
Definition RawQueryURL (r : Request) : option (string * option error) :=
  let epURL := URL (endPoint r) in
  match http_NewRequest "GET" epURL NilReader with
  | None => None
  | Some (inr err) => Some ("", Some (PackageError (Some err)))
  | Some (inl httpReq) =>
      let httpQuery := url_ParseQuery (RawQuery (rURL httpReq)) in
      let httpQuery := addQueries (queries r) httpQuery in
      let u := set_RawQuery (Values_Encode httpQuery) (rURL httpReq) in
      Some (URL_String u, None)
  end.

(** The variable [bodyString] of [genHTTPReq] when [r.hasBody] holds: a
    [*strings.Reader] that stays [nil] unless one of the two branches
    assigns it. *)
Definition bodyString (r : Request) : option string :=
  if (0 <? String.length (bodyTXT r))%nat then Some (bodyTXT r)
  else if (0 <? length (bodyKV r))%nat then
    let form :=
      foldl (fun form body =>
               Values_Add (key body) (valueData_string (value body)) form)
            ∅ (bodyKV r) in
    Some (Values_Encode form)
  else None.

(** [func (r *Request) genHTTPReq(method, epURL string)], which returns an
    [*http.Request] and an [error]; [None] when [http.NewRequest] panics. *)
Definition genHTTPReq (r : Request) (method epURL : string)
  : option (http_Request + error) :=
  if hasBody r then http_NewRequest method epURL (StringsReader (bodyString r))
  else http_NewRequest method epURL NilReader.

(** The loop [for _, hdr := range r.headers { httpReq.Header.Set(...) }]. *)
Definition setHeaders (hs : list reqHeader) (h : gmap string (list string))
  : gmap string (list string) :=
  foldl (fun h hdr =>
           Header_Set CanonicalMIMEHeaderKey (key hdr)
                      (valueData_string (value hdr)) h)
        h hs.

(** [func (r *Request) populateHTTPRequest(httpReq *http.Request)]: the
    request after the call. *)
Definition populateHTTPRequest (r : Request) (httpReq : http_Request)
  : http_Request :=
  let httpQuery := url_ParseQuery (RawQuery (rURL httpReq)) in
  let httpQuery := addQueries (queries r) httpQuery in
  {| Method := Method httpReq;
     rURL := set_RawQuery (Values_Encode httpQuery) (rURL httpReq);
     Header := setHeaders (headers r) (Header httpReq);
     rBody := rBody httpReq |}.

(** [func (r *Request) callAPI(method string)], returning a [*Response]
    and an [error].  The
    oracle's answer for this attempt is taken on entry; the round trip is
    [httpClient.Do] followed by [io.ReadAll]. *)
Definition callAPI (method : string) (r : Request)
  : M (option Response * option error) :=
  let epURL := URL (endPoint r) in
  a ← nextAttempt;
  match genHTTPReq r method epURL with
  | None => panic
  | Some (inr err) =>
      mret (None, Some (PackageError (Some
        (Errorf ("error in " +:+ method +:+ "(): creating *http.Request") err))))
  | Some (inl httpReq) =>
      let httpReq := populateHTTPRequest r httpReq in
      match roundTrip a httpReq with
      | DoFails err =>
          mret (None, Some (PackageError (Some
            (Errorf ("error in " +:+ method +:+ "(): communicating with api") err))))
      | ReadFails _ err =>
          mret (None, Some (PackageError (Some
            (Errorf ("error in " +:+ method +:+ "(): reading body of response") err))))
      | Replied status body =>
          let rv := newResponse status body in
          if negb (Status rv =? http_StatusOK)
          then mret (Some rv, Some (newQueryError rv r))
          else mret (Some rv, None)
      end
  end.

(** The answer the next attempt will get, without taking it. *)
Definition peekAttempt : M Attempt := fun w => Done (net w (calls w)) w.

(** The [select] of [callAPIWithTimeout]: the case [<-ctx.Done()] is taken
    when the deadline, [d] nanoseconds after the start, comes before the
    goroutine's result, or at the same instant if the oracle says so. *)
Definition timerFirst (d : Z) (a : Attempt) : bool :=
  (d <? latency a) || ((d =? latency a) && timerWinsTie a).

(** [func (r *Request) callAPIWithTimeout(method string)].
    With a positive timeout the call runs in a goroutine, which is modelled
    by running it and then deciding the [select]; when the timer wins, the
    goroutine's result is dropped. *)
Definition callAPIWithTimeout (method : string) (r : Request)
  : M (option Response * option error) :=
  opts ← deref (reqOptions r);
  if timeout opts <=? 0 then callAPI method r
  else
    let duration := wrap_int64 (1000000 * wrap_int64 (timeout opts)) in
    a ← peekAttempt;
    resp ← callAPI method r;
    if timerFirst duration a then mret (None, Some ErrTimeout)
    else mret (resp.1, Some (PackageError resp.2)).

(** The [for] loop of [GET], from the value [retry] of its counter on.  Its
    [res] and [err] are declared by [:=] inside the body: they are the
    loop's own.  The result is [Some] of what the [return] inside the loop
    returns, or [None] when the loop ends by its condition. *)
Fixpoint retryLoop (fuel : nat) (r : Request) (retry : Z)
  : M (option (option Response * option error)) :=
  match fuel with
  | O => fun _ => OutOfFuel
  | S fuel' =>
      opts ← deref (reqOptions r);
      if retry <=? retries opts then
        _ ← sleep 500;
        resp ← callAPIWithTimeout "GET" r;
        match resp.2 with
        | None => mret (Some (resp.1, resp.2))
        | Some _ => retryLoop fuel' r (wrap_uint (retry + 1))
        end
      else mret None
  end.

(** [func (r *Request) GET()]; [fuel] bounds the number
    of iterations of the loop. *)
Definition GET (fuel : nat) (r : Request) : M (option Response * option error) :=
  resp ← callAPIWithTimeout "GET" r;
  let res := resp.1 in
  let err := resp.2 in
  match err with
  | None => mret (res, err)
  | Some _ =>
      opts ← deref (reqOptions r);
      if 0 <? retries opts then
        inner ← retryLoop fuel r 1;
        match inner with
        | Some returned => mret returned
        | None => mret (res, err)
        end
      else mret (res, err)
  end.

(** [func (r *Request) POST()]. *)
Definition POST (r : Request) : M (option Response * option error) :=
  callAPIWithTimeout "POST" r.

(** The public operations that configure a request. *)
Inductive BuilderOp :=
| OpAddQuery (k val : string)
| OpAddQueryBool (k : string) (val : bool)
| OpAddQueryInt (k : string) (val : Z)
| OpAddHeader (k val : string)
| OpFormEncoded
| OpAddBodyKV (k val : string)
| OpSetBodyJSON (v : any).

(** The request after one operation was called on it. *)
Definition applyOp (op : BuilderOp) (r : Request) : Request :=
  match op with
  | OpAddQuery k val => AddQuery k val r
  | OpAddQueryBool k val => AddQueryBool k val r
  | OpAddQueryInt k val => AddQueryInt k val r
  | OpAddHeader k val => AddHeader k val r
  | OpFormEncoded => FormEncoded r
  | OpAddBodyKV k val => AddBodyKV k val r
  | OpSetBodyJSON v => default r (SetBodyJSON v r)
  end.

(** The request after a sequence of operations, first to last. *)
Definition applyOps (ops : list BuilderOp) (r : Request) : Request :=
  foldl (fun r op => applyOp op r) r ops.

End Package.

(** ** A concrete instance of the library interface

    Used to run the code on examples.  It serves endpoints whose URL has no
    query and no fragment, and values of type [any] that are [nil], a
    boolean, an integer or a channel. *)

Definition isControl (c : ascii) : bool :=
  (N_of_ascii c <? 32)%N || (N_of_ascii c =? 127)%N.

Fixpoint anyByte (p : ascii -> bool) (s : string) : bool :=
  match s with
  | EmptyString => false
  | String c s' => p c || anyByte p s'
  end.

(** [url.Parse] on a plain URL; a control character is an error, as in Go,
    and so is, in this instance only, a [?] or a [#]. *)
Definition plain_url_Parse (s : string) : url_URL + error :=
  if anyByte isControl s then
    inr (LibError "net/url: invalid control character in URL")
  else if anyByte (fun c => Ascii.eqb c "?" || Ascii.eqb c "#") s then
    inr (LibError "URL with a query or a fragment")
  else inl {| u_head := s; ForceQuery := false; RawQuery := ""; u_frag := "" |}.

(** [validHeaderFieldByte]: the token characters of RFC 7230. *)
Definition validHeaderFieldByte (c : ascii) : bool :=
  byte_between "a" "z" c || byte_between "A" "Z" c || byte_between "0" "9" c
  || anyByte (Ascii.eqb c) "!#$%&'*+-.^_`|~".

Definition toUpper (c : ascii) : ascii :=
  if byte_between "a" "z" c then ascii_of_N (N_of_ascii c - 32) else c.

Definition toLower (c : ascii) : ascii :=
  if byte_between "A" "Z" c then ascii_of_N (N_of_ascii c + 32) else c.

Fixpoint canonicalise (upper : bool) (s : string) : string :=
  match s with
  | EmptyString => ""
  | String c s' =>
      String (if upper then toUpper c else toLower c)
             (canonicalise (Ascii.eqb c "-") s')
  end.

(** [textproto.CanonicalMIMEHeaderKey]: a key with a byte that is no token
    character is returned as it is; otherwise the first letter and every
    letter after a hyphen is made upper case, the others lower case. *)
Definition textproto_CanonicalMIMEHeaderKey (s : string) : string :=
  if anyByte (fun c => negb (validHeaderFieldByte c)) s then s
  else canonicalise true s.

Inductive plainValue :=
| VNil
| VBool (b : bool)
| VInt (i : Z)
| VChan.

(** [json.Marshal] on these values; a channel is an unsupported type. *)
Definition plain_json_Marshal (v : plainValue) : string + error :=
  match v with
  | VNil => inl "null"
  | VBool b => inl (strconv_FormatBool b)
  | VInt i => inl (strconv_Itoa i)
  | VChan => inr (LibError "json: unsupported type: chan int")
  end.

Definition plainLib : GoLib :=
  {| url_Parse := plain_url_Parse;
     url_ParseQuery := fun _ => ∅;
     CanonicalMIMEHeaderKey := textproto_CanonicalMIMEHeaderKey;
     any := plainValue;
     json_Marshal := plain_json_Marshal |}.

(** ** Worlds reached during a call *)

(** The world after [n] more invocations of [callAPI] and [ms] more
    milliseconds of sleep. *)
Definition advance (n : nat) (ms : Z) (w : World) : World :=
  {| heap := heap w; net := net w; calls := (calls w + n)%nat;
     slept := slept w + ms |}.

(** The world in which attempt number [i] of a [GET] that starts in [w]
    runs: [i] attempts and [i] sleeps came before it. *)
Definition attemptWorld (w : World) (i : nat) : World :=
  advance i (500 * Z.of_nat i) w.

(** The [Options] a request's pointer leads to. *)
Definition optionsOf (r : Request) (w : World) : option Options :=
  reqOptions r ≫= (fun l => heap w !! l).

(** The [time.Duration] that [callAPIWithTimeout] computes. *)
Definition durationOf (opts : Options) : Z :=
  wrap_int64 (1000000 * wrap_int64 (timeout opts)).

(** ** Example data *)

Definition exEndpoint : Endpoint :=
  {| parent := {| apiOptions := Some 1%positive |};
     URL := "https://api.example.com/v1/items" |}.

(** A draft as [NewRequest] leaves it, with its own [Options] cell. *)
Definition exRequest : Request :=
  {| endPoint := exEndpoint; queries := []; headers := []; bodyKV := [];
     bodyTXT := ""; hasBody := false; reqOptions := Some 2%positive |}.

(** A world in which the API and the draft hold [opts] and the network
    follows [script]. *)
Definition exWorld (opts : Options) (script : nat -> Attempt) : World :=
  {| heap := <[2%positive := opts]> (<[1%positive := opts]> ∅);
     net := script; calls := 0; slept := 0 |}.

(** The same world before the draft is created: the API's cell only. *)
Definition exWorldBefore (opts : Options) (script : nat -> Attempt) : World :=
  {| heap := <[1%positive := opts]> ∅; net := script; calls := 0; slept := 0 |}.

(** An attempt that is answered after [ms] milliseconds. *)
Definition replyAfter (ms status : Z) (body : string) : Attempt :=
  {| latency := 1000000 * ms; timerWinsTie := false;
     roundTrip := fun _ => Replied status body |}.

(** A draft with the header [X-Token] added twice. *)
Definition exTwoHeaders : Request :=
  AddHeader "X-Token" "two" (AddHeader "X-Token" "one" exRequest).

(** A sequence of builder calls; the second [SetBodyJSON] fails. *)
Definition exOps : list (@BuilderOp plainLib) :=
  [@OpAddQuery plainLib "a" "1"; @OpSetBodyJSON plainLib (VInt 7);
   @OpSetBodyJSON plainLib VChan; @OpAddBodyKV plainLib "k" "v";
   @OpFormEncoded plainLib].

(** The first attempt is answered with status 500, every later one with
    status 404; each answer takes 5 ms. *)
Definition exTwoFailures (i : nat) : Attempt :=
  if (i =? 0)%nat then replyAfter 5 500 "a" else replyAfter 5 404 "b".

(** The first two attempts are answered with status 503, every later one
    with status 200; each answer takes 5 ms. *)
Definition exThirdSucceeds (i : nat) : Attempt :=
  if (i <? 2)%nat then replyAfter 5 503 "busy" else replyAfter 5 200 "ok".

(** Every attempt is answered with status 200 after 500 ms. *)
Definition exSlow (i : nat) : Attempt := replyAfter 500 200 "ok".

(** Every attempt is answered with status 200 after 5 ms. *)
Definition exFast (i : nat) : Attempt := replyAfter 5 200 "ok".

(** A second draft on the same endpoint, made after [exRequest], and the
    world with both drafts. *)
Definition exRequest2 : Request :=
  {| endPoint := exEndpoint; queries := []; headers := []; bodyKV := [];
     bodyTXT := ""; hasBody := false; reqOptions := Some 3%positive |}.

Definition exWorld2 (opts : Options) (script : nat -> Attempt) : World :=
  {| heap := <[3%positive := opts]>
               (<[2%positive := opts]> (<[1%positive := opts]> ∅));
     net := script; calls := 0; slept := 0 |}.

(** A draft on an endpoint whose URL starts with a tab, a control character
    that [url.Parse] rejects. *)
Definition exBadRequest : Request :=
  {| endPoint := {| parent := {| apiOptions := Some 1%positive |};
                    URL := String (ascii_of_nat 9) "https://api.example.com" |};
     queries := []; headers := []; bodyKV := []; bodyTXT := "";
     hasBody := false; reqOptions := Some 2%positive |}.

(** The additions to the query of a draft as [key], [value] pairs of
    strings, in the order of the additions. *)
Definition addedPairs (qs : list reqQuery) : list (string * string) :=
  (fun qry => (key qry, valueData_string (value qry))) <$> qs.

(** The pairs of a list that have the key [k], in the order of the list. *)
Definition pairsOf (k : string) (ps : list (string * string))
  : list (string * string) :=
  filter (fun p => p.1 = k) ps.

(** The invariant of the body fields of a draft. *)
Definition bodyInv (r : Request) : Prop :=
  hasBody r = true <-> (bodyTXT r <> "" \/ bodyKV r <> []).

(** * Properties *)

(** ** The world after a call *)

Lemma world_eq (w1 w2 : World) :
  heap w1 = heap w2 -> net w1 = net w2 -> calls w1 = calls w2 ->
  slept w1 = slept w2 -> w1 = w2.
Proof. destruct w1, w2; simpl; intros; subst; reflexivity. Qed.

Ltac world_eq := apply world_eq; simpl; try reflexivity; try lia.

Lemma advance_0 w : advance 0 0 w = w.
Proof. world_eq. Qed.

Lemma advance_advance n1 ms1 n2 ms2 w :
  advance n2 ms2 (advance n1 ms1 w) = advance (n1 + n2) (ms1 + ms2) w.
Proof. world_eq. Qed.

Lemma optionsOf_advance r n ms w : optionsOf r (advance n ms w) = optionsOf r w.
Proof. reflexivity. Qed.

Lemma deref_optionsOf r w opts :
  optionsOf r w = Some opts -> deref (reqOptions r) w = Done opts w.
Proof. unfold deref, optionsOf. intros ->. reflexivity. Qed.

Lemma deref_advance r n ms w opts :
  optionsOf r w = Some opts ->
  deref (reqOptions r) (advance n ms w) = Done opts (advance n ms w).
Proof. intros Hopts. apply deref_optionsOf. exact Hopts. Qed.

Section Execution.
Context `{GoLib}.

(** [callAPI] returns unless building the request panics, and it changes
    the world by counting one call. *)
Lemma callAPI_Done method r w :
  genHTTPReq r method (URL (endPoint r)) <> None ->
  exists out, callAPI method r w = Done out (advance 1 0 w).
Proof.
  intros Hgen. unfold callAPI, mbind, M_bind, nextAttempt.
  replace (mkWorld (heap w) (net w) (S (calls w)) (slept w))
    with (advance 1 0 w) by world_eq.
  destruct (genHTTPReq r method (URL (endPoint r))) as [[httpReq|err]|];
    [| eauto | congruence].
  destruct (roundTrip _ _); eauto.
  destruct (negb _); eauto.
Qed.

Lemma callAPIWithTimeout_Done method r w opts :
  optionsOf r w = Some opts ->
  genHTTPReq r method (URL (endPoint r)) <> None ->
  exists out, callAPIWithTimeout method r w = Done out (advance 1 0 w).
Proof.
  intros Hopts Hgen. unfold callAPIWithTimeout, mbind, M_bind.
  rewrite (deref_optionsOf _ _ _ Hopts).
  destruct (callAPI_Done method r w Hgen) as [out Hout].
  destruct (timeout opts <=? 0); [eauto |].
  unfold peekAttempt. rewrite Hout.
  destruct (timerFirst _ _); eauto.
Qed.

Lemma callAPI_world method r w out w' :
  callAPI method r w = Done out w' -> w' = advance 1 0 w.
Proof.
  unfold callAPI, mbind, M_bind, nextAttempt, panic.
  replace (mkWorld (heap w) (net w) (S (calls w)) (slept w))
    with (advance 1 0 w) by world_eq.
  destruct (genHTTPReq r method (URL (endPoint r))) as [[httpReq|err]|];
    [| intros [= _ <-]; reflexivity | discriminate].
  destruct (roundTrip _ _); try (intros [= _ <-]; reflexivity).
  destruct (negb _); intros [= _ <-]; reflexivity.
Qed.

Lemma callAPIWithTimeout_world method r w out w' :
  callAPIWithTimeout method r w = Done out w' -> w' = advance 1 0 w.
Proof.
  unfold callAPIWithTimeout, mbind, M_bind, deref.
  destruct (reqOptions r ≫= _) as [opts|]; [| discriminate].
  destruct (timeout opts <=? 0); [apply callAPI_world |].
  unfold peekAttempt.
  destruct (callAPI method r w) as [resp w1| |] eqn:Hcall; try discriminate.
  apply callAPI_world in Hcall. subst w1.
  destruct (timerFirst _ _); intros [= _ <-]; reflexivity.
Qed.

End Execution.

(** ** Classification of a completed round trip *)

Section Classification.
Context `{GoLib}.

(** C6. When the round trip completes with a status code and a body,
    [callAPI] returns the response; with it comes no error if the status is
    200, and for every other status the API error that carries the status
    code, the body text and the request. *)
Theorem callAPI_classifies_status method r w httpReq status body :
  genHTTPReq r method (URL (endPoint r)) = Some (inl httpReq) ->
  roundTrip (net w (calls w)) (populateHTTPRequest r httpReq)
    = Replied status body ->
  callAPI method r w =
    Done (Some {| Status := status; Body := body |},
          if decide (status = 200) then None
          else Some (QueryError status body r))
         (advance 1 0 w).
Proof.
  intros Hgen Hrt. unfold callAPI, mbind, M_bind, nextAttempt.
  rewrite Hgen. simpl. rewrite Hrt. unfold http_StatusOK.
  replace (mkWorld (heap w) (net w) (S (calls w)) (slept w))
    with (advance 1 0 w) by world_eq.
  destruct (decide (status = 200)) as [->|Hne]; [reflexivity |].
  destruct (Z.eqb_spec status 200); [contradiction | reflexivity].
Qed.

(** A [GET] without retries is one [callAPIWithTimeout]. *)
Lemma GET_no_retries fuel r w opts :
  optionsOf r w = Some opts ->
  retries opts = 0 ->
  GET fuel r w = callAPIWithTimeout "GET" r w.
Proof.
  intros Hopts Hretries. unfold GET, mbind, M_bind.
  destruct (callAPIWithTimeout "GET" r w) as [[res err] w1| |] eqn:Hcall;
    try reflexivity.
  apply callAPIWithTimeout_world in Hcall. subst w1. simpl.
  destruct err as [e|]; [| reflexivity].
  rewrite (deref_advance r _ _ w opts Hopts), Hretries. reflexivity.
Qed.

(** C5. With a timeout that is not positive, [callAPIWithTimeout] is the
    plain [callAPI], and so are [POST] and a [GET] without retries; with a
    positive timeout whose deadline comes before the goroutine's result, all
    three return no response and [ErrTimeout]. *)
Theorem callAPIWithTimeout_sync_or_deadline method r w opts :
  optionsOf r w = Some opts ->
  (timeout opts <= 0 ->
     callAPIWithTimeout method r w = callAPI method r w
     /\ POST r w = callAPI "POST" r w
     /\ (retries opts = 0 -> forall fuel, GET fuel r w = callAPI "GET" r w))
  /\ (0 < timeout opts ->
      durationOf opts < latency (net w (calls w)) ->
      genHTTPReq r method (URL (endPoint r)) <> None ->
      callAPIWithTimeout method r w
        = Done (None, Some ErrTimeout) (advance 1 0 w)
      /\ (method = "POST" ->
          POST r w = Done (None, Some ErrTimeout) (advance 1 0 w))
      /\ (method = "GET" -> retries opts = 0 -> forall fuel,
          GET fuel r w = Done (None, Some ErrTimeout) (advance 1 0 w))).
Proof.
  intros Hopts.
  assert (Hsync : timeout opts <= 0 -> forall m,
            callAPIWithTimeout m r w = callAPI m r w).
  { intros Hle m. unfold callAPIWithTimeout, mbind, M_bind.
    rewrite (deref_optionsOf _ _ _ Hopts).
    destruct (Z.leb_spec (timeout opts) 0); [reflexivity | lia]. }
  split.
  - intros Hle. split; [apply Hsync; exact Hle |].
    split; [apply Hsync; exact Hle |].
    intros Hretries fuel.
    rewrite (GET_no_retries fuel r w opts Hopts Hretries).
    apply Hsync. exact Hle.
  - intros Hpos Hlate Hgen.
    assert (Hdead : callAPIWithTimeout method r w
              = Done (None, Some ErrTimeout) (advance 1 0 w)).
    { unfold callAPIWithTimeout, mbind, M_bind.
      rewrite (deref_optionsOf _ _ _ Hopts).
      destruct (Z.leb_spec (timeout opts) 0); [lia |].
      unfold peekAttempt.
      destruct (callAPI_Done method r w Hgen) as [out ->].
      unfold timerFirst. fold (durationOf opts).
      destruct (Z.ltb_spec (durationOf opts) (latency (net w (calls w))));
        [reflexivity | lia]. }
    split; [exact Hdead |]. split.
    + intros ->. exact Hdead.
    + intros -> Hretries fuel.
      rewrite (GET_no_retries fuel r w opts Hopts Hretries). exact Hdead.
Qed.

(** C1. With a positive timeout, when the goroutine's result arrives before
    the deadline and is a response with a nil error, [callAPIWithTimeout]
    returns the response with the non-nil error [&PackageError{nil}]: the
    wrapping is applied whether or not the inner call failed.  [POST]
    returns the same pair, and so does [GET] when no retries are set. *)
Theorem callAPIWithTimeout_wraps_nil_error method r w opts resp :
  optionsOf r w = Some opts ->
  0 < timeout opts ->
  latency (net w (calls w)) < durationOf opts ->
  callAPI method r w = Done (Some resp, None) (advance 1 0 w) ->
  callAPIWithTimeout method r w
    = Done (Some resp, Some (PackageError None)) (advance 1 0 w)
  /\ (method = "POST" ->
      POST r w = Done (Some resp, Some (PackageError None)) (advance 1 0 w))
  /\ (method = "GET" -> retries opts = 0 -> forall fuel,
      GET fuel r w = Done (Some resp, Some (PackageError None)) (advance 1 0 w)).
Proof.
  intros Hopts Hpos Hearly Hcall.
  assert (Hwrap : callAPIWithTimeout method r w
            = Done (Some resp, Some (PackageError None)) (advance 1 0 w)).
  { unfold callAPIWithTimeout, mbind, M_bind.
    rewrite (deref_optionsOf _ _ _ Hopts).
    destruct (Z.leb_spec (timeout opts) 0); [lia |].
    unfold peekAttempt. rewrite Hcall. unfold timerFirst.
    fold (durationOf opts).
    destruct (Z.ltb_spec (durationOf opts) (latency (net w (calls w))));
      [lia |].
    destruct (Z.eqb_spec (durationOf opts) (latency (net w (calls w))));
      [lia | reflexivity]. }
  split; [exact Hwrap |]. split.
  - intros ->. exact Hwrap.
  - intros -> Hretries fuel.
    rewrite (GET_no_retries fuel r w opts Hopts Hretries). exact Hwrap.
Qed.

(** C9. [POST] performs exactly one attempt and never sleeps, whatever the
    number of retries in the options. *)
Theorem POST_single_attempt r w opts :
  optionsOf r w = Some opts ->
  genHTTPReq r "POST" (URL (endPoint r)) <> None ->
  exists out w',
    POST r w = Done out w'
    /\ calls w' = S (calls w) /\ slept w' = slept w.
Proof.
  intros Hopts Hgen.
  destruct (callAPIWithTimeout_Done "POST" r w opts Hopts Hgen) as [out Hout].
  exists out, (advance 1 0 w). split; [exact Hout |].
  simpl. split; lia.
Qed.

End Classification.

(** ** The retry loop of [GET] *)

Section Retry.
Context `{GoLib}.

(** With a positive timeout no attempt returns a nil error: the result is
    [ErrTimeout] or a [PackageError]. *)
Lemma callAPIWithTimeout_positive_error method r w opts out w' :
  optionsOf r w = Some opts ->
  0 < timeout opts ->
  callAPIWithTimeout method r w = Done out w' ->
  out.2 <> None.
Proof.
  intros Hopts Hpos. unfold callAPIWithTimeout, mbind, M_bind.
  rewrite (deref_optionsOf _ _ _ Hopts).
  destruct (Z.leb_spec (timeout opts) 0); [lia |].
  unfold peekAttempt.
  destruct (callAPI method r w) as [resp w1| |]; try discriminate.
  destruct (timerFirst _ _); intros [= <- _]; discriminate.
Qed.

(** The loop when every retry fails: it runs from the value [i] of its
    counter to [n], and ends by its condition after the attempt number [n]. *)
Lemma retryLoop_exhausted r w opts (n : nat) :
  optionsOf r w = Some opts ->
  retries opts = Z.of_nat n ->
  Z.of_nat n < 2 ^ 64 - 1 ->
  (forall j, (1 <= j <= n)%nat ->
     exists out w', callAPIWithTimeout "GET" r (attemptWorld w j) = Done out w'
                    /\ out.2 <> None) ->
  forall (k i fuel : nat),
    (1 <= i)%nat -> (i + k = n + 1)%nat -> (k < fuel)%nat ->
    retryLoop fuel r (Z.of_nat i) (advance i (500 * (Z.of_nat i - 1)) w)
      = Done None (advance (n + 1) (500 * Z.of_nat n) w).
Proof.
  intros Hopts Hn Hbound Hfail. induction k as [|k IH]; intros i fuel Hi Hik Hfuel.
  - destruct fuel as [|fuel]; [lia |]. cbn [retryLoop]. unfold mbind, M_bind.
    rewrite (deref_advance r _ _ w opts Hopts). rewrite Hn.
    destruct (Z.leb_spec (Z.of_nat i) (Z.of_nat n)); [lia |].
    unfold mret, M_ret. f_equal. world_eq.
  - destruct fuel as [|fuel]; [lia |]. cbn [retryLoop]. unfold mbind, M_bind.
    rewrite (deref_advance r _ _ w opts Hopts). rewrite Hn.
    destruct (Z.leb_spec (Z.of_nat i) (Z.of_nat n)); [| lia].
    unfold sleep.
    replace (mkWorld _ _ _ _) with (attemptWorld w i)
      by (unfold attemptWorld; world_eq).
    destruct (Hfail i ltac:(lia)) as (out & w' & Hcall & Herr).
    rewrite Hcall. apply callAPIWithTimeout_world in Hcall. subst w'.
    destruct (out.2) as [e|] eqn:He; [| congruence].
    replace (wrap_uint (Z.of_nat i + 1)) with (Z.of_nat (S i))
      by (unfold wrap_uint; rewrite Z.mod_small; lia).
    replace (advance 1 0 (attemptWorld w i))
      with (advance (S i) (500 * (Z.of_nat (S i) - 1)) w)
      by (unfold attemptWorld; world_eq).
    apply IH; lia.
Qed.

(** [GET] when the first attempt and every retry fail: it returns what the
    first attempt returned. *)
Lemma GET_exhausted fuel r w opts (n : nat) out0 w1 :
  optionsOf r w = Some opts ->
  retries opts = Z.of_nat n ->
  Z.of_nat n < 2 ^ 64 - 1 ->
  (n < fuel)%nat ->
  callAPIWithTimeout "GET" r w = Done out0 w1 ->
  out0.2 <> None ->
  (forall j, (1 <= j <= n)%nat ->
     exists out w', callAPIWithTimeout "GET" r (attemptWorld w j) = Done out w'
                    /\ out.2 <> None) ->
  GET fuel r w = Done out0 (advance (n + 1) (500 * Z.of_nat n) w).
Proof.
  intros Hopts Hn Hbound Hfuel Hfirst Herr Hfail.
  unfold GET, mbind, M_bind. rewrite Hfirst.
  apply callAPIWithTimeout_world in Hfirst. subst w1.
  destruct out0 as [res err]. simpl in *.
  destruct err as [e|]; [| congruence].
  rewrite (deref_advance r _ _ w opts Hopts). rewrite Hn.
  destruct (Z.ltb_spec 0 (Z.of_nat n)) as [Hpos|Hzero].
  - replace (advance 1 0 w) with (advance 1 (500 * (Z.of_nat 1 - 1)) w)
      by world_eq.
    change 1 with (Z.of_nat 1) at 1.
    rewrite (retryLoop_exhausted r w opts n Hopts Hn Hbound Hfail n 1%nat fuel);
      [reflexivity | lia ..].
  - unfold mret, M_ret. f_equal. world_eq.
Qed.

(** The loop when the retries fail up to the attempt number [j], which
    returns a nil error: the loop returns the outcome of that attempt. *)
Lemma retryLoop_succeeds r w opts (n j : nat) outj :
  optionsOf r w = Some opts ->
  retries opts = Z.of_nat n ->
  Z.of_nat n < 2 ^ 64 - 1 ->
  (1 <= j <= n)%nat ->
  (forall i, (1 <= i < j)%nat ->
     exists out w', callAPIWithTimeout "GET" r (attemptWorld w i) = Done out w'
                    /\ out.2 <> None) ->
  callAPIWithTimeout "GET" r (attemptWorld w j)
    = Done outj (advance 1 0 (attemptWorld w j)) ->
  outj.2 = None ->
  forall (k i fuel : nat),
    (1 <= i)%nat -> (i + k = j)%nat -> (k < fuel)%nat ->
    retryLoop fuel r (Z.of_nat i) (advance i (500 * (Z.of_nat i - 1)) w)
      = Done (Some outj) (advance (j + 1) (500 * Z.of_nat j) w).
Proof.
  intros Hopts Hn Hbound Hj Hfail Hcall Hok.
  induction k as [|k IH]; intros i fuel Hi Hik Hfuel;
    (destruct fuel as [|fuel]; [lia |]); cbn [retryLoop]; unfold mbind, M_bind;
    rewrite (deref_advance r _ _ w opts Hopts), Hn;
    (destruct (Z.leb_spec (Z.of_nat i) (Z.of_nat n)); [| lia]);
    unfold sleep;
    (replace (mkWorld _ _ _ _) with (attemptWorld w i)
       by (unfold attemptWorld; world_eq)).
  - assert (i = j) as -> by lia. rewrite Hcall, Hok.
    destruct outj as [res err]. simpl in Hok. subst err.
    unfold mret, M_ret. f_equal. unfold attemptWorld. world_eq.
  - destruct (Hfail i ltac:(lia)) as (out & w' & Hcalli & Herr).
    rewrite Hcalli. apply callAPIWithTimeout_world in Hcalli. subst w'.
    destruct (out.2) as [e|] eqn:He; [| congruence].
    replace (wrap_uint (Z.of_nat i + 1)) with (Z.of_nat (S i))
      by (unfold wrap_uint; rewrite Z.mod_small; lia).
    replace (advance 1 0 (attemptWorld w i))
      with (advance (S i) (500 * (Z.of_nat (S i) - 1)) w)
      by (unfold attemptWorld; world_eq).
    apply IH; lia.
Qed.

(** [GET] returns the first outcome with a nil error: at once when the first
    attempt has it, and after [j] failed attempts and [j] sleeps of 500 ms
    when the retry number [j] has it. *)
Lemma GET_first_success fuel r w res w1 :
  callAPIWithTimeout "GET" r w = Done (res, None) w1 ->
  GET fuel r w = Done (res, None) (advance 1 0 w).
Proof.
  intros Hfirst. unfold GET, mbind, M_bind. rewrite Hfirst.
  apply callAPIWithTimeout_world in Hfirst. subst w1. reflexivity.
Qed.

Lemma GET_retry_success fuel r w opts (n j : nat) out0 w1 outj :
  optionsOf r w = Some opts ->
  retries opts = Z.of_nat n ->
  Z.of_nat n < 2 ^ 64 - 1 ->
  (1 <= j <= n)%nat ->
  (j <= fuel)%nat ->
  callAPIWithTimeout "GET" r w = Done out0 w1 ->
  out0.2 <> None ->
  (forall i, (1 <= i < j)%nat ->
     exists out w', callAPIWithTimeout "GET" r (attemptWorld w i) = Done out w'
                    /\ out.2 <> None) ->
  callAPIWithTimeout "GET" r (attemptWorld w j)
    = Done outj (advance 1 0 (attemptWorld w j)) ->
  outj.2 = None ->
  GET fuel r w = Done outj (advance (j + 1) (500 * Z.of_nat j) w).
Proof.
  intros Hopts Hn Hbound Hj Hfuel Hfirst Herr Hfail Hcall Hok.
  unfold GET, mbind, M_bind. rewrite Hfirst.
  apply callAPIWithTimeout_world in Hfirst. subst w1.
  destruct out0 as [res err]. simpl in *.
  destruct err as [e|]; [| congruence].
  rewrite (deref_advance r _ _ w opts Hopts). rewrite Hn.
  destruct (Z.ltb_spec 0 (Z.of_nat n)) as [Hpos|Hzero]; [| lia].
  replace (advance 1 0 w) with (advance 1 (500 * (Z.of_nat 1 - 1)) w)
    by world_eq.
  change 1 with (Z.of_nat 1) at 1.
  rewrite (retryLoop_succeeds r w opts n j outj Hopts Hn Hbound Hj Hfail Hcall
             Hok (j - 1) 1%nat fuel); [reflexivity | lia ..].
Qed.

(** C4. [GET] with [n > 0] retries, when the first attempt and all [n]
    retries fail: [n + 1] attempts are made, and the call returns the
    response and error of the first attempt, the ones of the outer [res] and
    [err]; the loop's own [res] and [err] are lost with the loop. *)
Theorem GET_exhausted_returns_first_attempt fuel r w opts (n : nat) out0 w1 :
  optionsOf r w = Some opts ->
  retries opts = Z.of_nat n ->
  (0 < n)%nat ->
  Z.of_nat n < 2 ^ 64 - 1 ->
  (n < fuel)%nat ->
  callAPIWithTimeout "GET" r w = Done out0 w1 ->
  out0.2 <> None ->
  (forall j, (1 <= j <= n)%nat ->
     exists out w', callAPIWithTimeout "GET" r (attemptWorld w j) = Done out w'
                    /\ out.2 <> None) ->
  exists w', GET fuel r w = Done out0 w' /\ calls w' = (calls w + (n + 1))%nat.
Proof.
  intros Hopts Hn Hpos Hbound Hfuel Hfirst Herr Hfail.
  exists (advance (n + 1) (500 * Z.of_nat n) w). split; [| reflexivity].
  eapply GET_exhausted; eassumption.
Qed.

(** C2 (amended). [GET] with [n > 0] retries and a positive timeout retries
    after a timeout as after any other failure: when the first attempt ends
    with [ErrTimeout], at least one more attempt is made; when every attempt
    runs into its deadline, [n + 1] attempts are made, with [n] sleeps of
    500 ms, and the call returns [ErrTimeout]. *)
Theorem GET_retries_after_timeout fuel r w opts (n : nat) :
  optionsOf r w = Some opts ->
  0 < timeout opts ->
  retries opts = Z.of_nat n ->
  (0 < n)%nat ->
  Z.of_nat n < 2 ^ 64 - 1 ->
  (n < fuel)%nat ->
  genHTTPReq r "GET" (URL (endPoint r)) <> None ->
  callAPIWithTimeout "GET" r w = Done (None, Some ErrTimeout) (advance 1 0 w) ->
  (exists out w', GET fuel r w = Done out w' /\ (calls w + 2 <= calls w')%nat)
  /\ ((forall j, (j <= n)%nat ->
         durationOf opts < latency (net w (calls w + j)%nat)) ->
      GET fuel r w
        = Done (None, Some ErrTimeout) (advance (n + 1) (500 * Z.of_nat n) w)).
Proof.
  intros Hopts Htimeout Hn Hpos Hbound Hfuel Hgen Hfirst.
  assert (Hfail : forall j, (1 <= j <= n)%nat ->
            exists out w',
              callAPIWithTimeout "GET" r (attemptWorld w j) = Done out w'
              /\ out.2 <> None).
  { intros j _.
    destruct (callAPIWithTimeout_Done "GET" r (attemptWorld w j) opts Hopts Hgen)
      as [out Hout].
    exists out, (advance 1 0 (attemptWorld w j)). split; [exact Hout |].
    eapply (callAPIWithTimeout_positive_error "GET" r (attemptWorld w j));
      eassumption. }
  assert (Hget : GET fuel r w
            = Done (None, Some ErrTimeout) (advance (n + 1) (500 * Z.of_nat n) w)).
  { eapply GET_exhausted; try eassumption. discriminate. }
  split.
  - exists (None, Some ErrTimeout), (advance (n + 1) (500 * Z.of_nat n) w).
    split; [exact Hget |]. simpl. lia.
  - intros _. exact Hget.
Qed.

End Retry.

(** ** The executor on concrete inputs *)

(** A reply with status 404 comes back with its API error. *)
Lemma callAPI_classifies_status_witness :
  callAPI (H := plainLib) "GET" exRequest
          (exWorld (mkOptions 0 0) (fun _ => replyAfter 5 404 "not found"))
  = Done (Some {| Status := 404; Body := "not found" |},
          Some (QueryError 404 "not found" exRequest))
         (advance 1 0
            (exWorld (mkOptions 0 0) (fun _ => replyAfter 5 404 "not found"))).
Proof.
  apply (callAPI_classifies_status (H := plainLib) "GET" exRequest
           (exWorld (mkOptions 0 0) (fun _ => replyAfter 5 404 "not found"))
           {| Method := "GET";
              rURL := {| u_head := "https://api.example.com/v1/items";
                         ForceQuery := false; RawQuery := ""; u_frag := "" |};
              Header := ∅; rBody := None |}
           404 "not found").
  - vm_compute. reflexivity.
  - reflexivity.
Defined.

(** Without a timeout the call is the plain one; with 100 ms against a
    server that takes 500 ms it ends with [ErrTimeout]. *)
Lemma callAPIWithTimeout_sync_or_deadline_witness :
  (callAPIWithTimeout (H := plainLib) "GET" exRequest
                      (exWorld (mkOptions 0 0) exSlow)
   = callAPI (H := plainLib) "GET" exRequest (exWorld (mkOptions 0 0) exSlow))
  /\ GET (H := plainLib) 1 exRequest (exWorld (mkOptions 100 0) exSlow)
     = Done (None, Some ErrTimeout)
            (advance 1 0 (exWorld (mkOptions 100 0) exSlow)).
Proof.
  split.
  - apply (proj1 (callAPIWithTimeout_sync_or_deadline (H := plainLib) "GET"
                    exRequest (exWorld (mkOptions 0 0) exSlow) (mkOptions 0 0)
                    eq_refl)).
    simpl. lia.
  - refine (proj2 (proj2 (proj2 (callAPIWithTimeout_sync_or_deadline
                     (H := plainLib) "GET" exRequest
                     (exWorld (mkOptions 100 0) exSlow) (mkOptions 100 0)
                     eq_refl) _ _ _)) eq_refl eq_refl 1%nat).
    + simpl. lia.
    + vm_compute. reflexivity.
    + vm_compute. discriminate.
Defined.

(** A reply with status 200 that arrives after 5 ms of a 1000 ms timeout:
    the response comes back with the non-nil error [PackageError None]. *)
Lemma callAPIWithTimeout_wraps_nil_error_witness :
  callAPIWithTimeout (H := plainLib) "GET" exRequest
                     (exWorld (mkOptions 1000 0) exFast)
  = Done (Some {| Status := 200; Body := "ok" |}, Some (PackageError None))
         (advance 1 0 (exWorld (mkOptions 1000 0) exFast)).
Proof.
  refine (proj1 (callAPIWithTimeout_wraps_nil_error (H := plainLib) "GET"
                   exRequest (exWorld (mkOptions 1000 0) exFast)
                   (mkOptions 1000 0) {| Status := 200; Body := "ok" |}
                   _ _ _ _)).
  - reflexivity.
  - simpl. lia.
  - vm_compute. reflexivity.
  - vm_compute. reflexivity.
Defined.

(** A [POST] with three retries configured, answered with status 500: one
    attempt. *)
Lemma POST_single_attempt_witness :
  exists out w',
    POST (H := plainLib) exRequest (exWorld (mkOptions 0 3) exTwoFailures)
      = Done out w'
    /\ calls w' = 1%nat /\ slept w' = 0.
Proof.
  apply (POST_single_attempt (H := plainLib) exRequest
           (exWorld (mkOptions 0 3) exTwoFailures) (mkOptions 0 3)).
  - reflexivity.
  - vm_compute. discriminate.
Defined.

(** One retry, status 500 then status 404: [GET] returns the outcome of the
    first attempt, the one with status 500. *)
Lemma GET_exhausted_returns_first_attempt_witness :
  exists w',
    GET (H := plainLib) 2 exRequest (exWorld (mkOptions 0 1) exTwoFailures)
      = Done (Some {| Status := 500; Body := "a" |},
              Some (QueryError 500 "a" exRequest)) w'
    /\ calls w' = 2%nat.
Proof.
  apply (GET_exhausted_returns_first_attempt (H := plainLib) 2 exRequest
           (exWorld (mkOptions 0 1) exTwoFailures) (mkOptions 0 1) 1
           (Some {| Status := 500; Body := "a" |},
            Some (QueryError 500 "a" exRequest))
           (advance 1 0 (exWorld (mkOptions 0 1) exTwoFailures))).
  - reflexivity.
  - reflexivity.
  - lia.
  - lia.
  - lia.
  - vm_compute. reflexivity.
  - discriminate.
  - intros j Hj. assert (j = 1%nat) as -> by lia.
    exists (Some {| Status := 404; Body := "b" |},
            Some (QueryError 404 "b" exRequest)).
    eexists. split; [vm_compute; reflexivity | discriminate].
Defined.

(** The last of these two attempts, the second, returned status 404. *)
Example GET_exhausted_last_attempt :
  callAPIWithTimeout (H := plainLib) "GET" exRequest
    (attemptWorld (exWorld (mkOptions 0 1) exTwoFailures) 1)
  = Done (Some {| Status := 404; Body := "b" |},
          Some (QueryError 404 "b" exRequest))
         (advance 1 0 (attemptWorld (exWorld (mkOptions 0 1) exTwoFailures) 1)).
Proof. vm_compute. reflexivity. Qed.

(** Two retries without a timeout, status 503 twice and then 200: [GET]
    returns the success after three attempts and two sleeps. *)
Example GET_third_attempt_succeeds :
  GET (H := plainLib) 2 exRequest (exWorld (mkOptions 0 2) exThirdSucceeds)
  = Done (Some {| Status := 200; Body := "ok" |}, None)
         (advance 3 1000 (exWorld (mkOptions 0 2) exThirdSucceeds)).
Proof. vm_compute. reflexivity. Qed.

(** Two retries and a timeout of 1000 ms against a server that answers
    status 200 after 5 ms: no attempt returns a nil error, so the request is
    sent three times. *)
Example GET_positive_timeout_repeats_success :
  GET (H := plainLib) 3 exRequest (exWorld (mkOptions 1000 2) exFast)
  = Done (Some {| Status := 200; Body := "ok" |}, Some (PackageError None))
         (advance 3 1000 (exWorld (mkOptions 1000 2) exFast)).
Proof. vm_compute. reflexivity. Qed.

(** One retry and a timeout of 100 ms against a server that takes 500 ms:
    two attempts, then [ErrTimeout]. *)
Lemma GET_retries_after_timeout_witness :
  (exists out w',
     GET (H := plainLib) 2 exRequest (exWorld (mkOptions 100 1) exSlow)
       = Done out w'
     /\ (2 <= calls w')%nat)
  /\ GET (H := plainLib) 2 exRequest (exWorld (mkOptions 100 1) exSlow)
     = Done (None, Some ErrTimeout)
            (advance 2 500 (exWorld (mkOptions 100 1) exSlow)).
Proof.
  destruct (GET_retries_after_timeout (H := plainLib) 2 exRequest
              (exWorld (mkOptions 100 1) exSlow) (mkOptions 100 1) 1)
    as [Hmore Hall].
  - reflexivity.
  - simpl. lia.
  - reflexivity.
  - lia.
  - lia.
  - lia.
  - vm_compute. discriminate.
  - vm_compute. reflexivity.
  - split; [exact Hmore |]. apply Hall. intros j _. vm_compute. reflexivity.
Defined.

(** C2, as stated, fails: with one retry and a timeout of 100 ms against a
    server that takes 500 ms, the first attempt ends with [ErrTimeout] and
    [GET] makes a second attempt. *)
Lemma GET_timeout_is_final_counterexample :
  ~ (forall fuel r w opts out w',
       optionsOf r w = Some opts ->
       0 < retries opts ->
       callAPIWithTimeout (H := plainLib) "GET" r w
         = Done (None, Some ErrTimeout) (advance 1 0 w) ->
       GET (H := plainLib) fuel r w = Done out w' ->
       calls w' = S (calls w)).
Proof.
  intros Hclaim.
  specialize (Hclaim 2%nat exRequest (exWorld (mkOptions 100 1) exSlow)
                (mkOptions 100 1) (None, Some ErrTimeout)
                (advance 2 500 (exWorld (mkOptions 100 1) exSlow))).
  assert (Hcalls : (2 = 1)%nat); [| discriminate].
  apply Hclaim.
  - reflexivity.
  - simpl. lia.
  - vm_compute. reflexivity.
  - vm_compute. reflexivity.
Qed.

(** ** The draft: options, headers, body *)

Section Draft.
Context `{GoLib}.

(** C8. [NewRequest] gives the draft a cell of its own that holds the
    options the API has at that moment: the cell is new, it is not the API's,
    and whatever is written to the API's cell afterwards, the draft's timeout
    and retries stay what they were. *)
Theorem NewRequest_copies_options e w l0 opts :
  apiOptions (parent e) = Some l0 ->
  heap w !! l0 = Some opts ->
  exists r w' l,
    NewRequest e w = Done r w'
    /\ reqOptions r = Some l
    /\ l <> l0
    /\ heap w !! l = None
    /\ optionsOf r w' = Some opts
    /\ forall w2, (forall l', l' <> l0 -> heap w2 !! l' = heap w' !! l') ->
                  optionsOf r w2 = Some opts.
Proof.
  intros Hptr Hcell.
  set (l := fresh (dom (heap w))).
  assert (Hfresh : heap w !! l = None).
  { apply not_elem_of_dom. apply is_fresh. }
  assert (Hne : l <> l0) by congruence.
  eexists _, _, l. split.
  - unfold NewRequest, mbind, M_bind, deref. rewrite Hptr. simpl.
    rewrite Hcell. reflexivity.
  - simpl. fold l. repeat split; try assumption.
    + unfold optionsOf. simpl. apply lookup_insert_eq.
    + intros w2 Hsame. unfold optionsOf. simpl.
      rewrite (Hsame l Hne). simpl. apply lookup_insert_eq.
Qed.

Lemma setHeaders_cons hdr post h :
  setHeaders (hdr :: post) h
  = setHeaders post
      (Header_Set CanonicalMIMEHeaderKey (key hdr)
                  (valueData_string (value hdr)) h).
Proof. reflexivity. Qed.

Lemma setHeaders_app pre post h :
  setHeaders (pre ++ post) h = setHeaders post (setHeaders pre h).
Proof. unfold setHeaders. apply foldl_app. Qed.

Lemma setHeaders_other post h k :
  (forall hdr, hdr ∈ post -> CanonicalMIMEHeaderKey (key hdr) <> k) ->
  setHeaders post h !! k = h !! k.
Proof.
  revert h. induction post as [|hdr post IH]; intros h Hother; [reflexivity |].
  rewrite setHeaders_cons. rewrite IH.
  - unfold Header_Set. apply lookup_insert_ne. apply Hother. left.
  - intros hdr' Hin. apply Hother. right. exact Hin.
Qed.

(** C7. The header map of the materialised request holds, under a key, the
    value of the last header added with that key and nothing else.  Keys are
    header names: [Header.Set] stores them in canonical form. *)
Theorem populateHTTPRequest_header_last_wins r httpReq pre hdr post :
  headers r = pre ++ hdr :: post ->
  (forall hdr', hdr' ∈ post ->
     CanonicalMIMEHeaderKey (key hdr') <> CanonicalMIMEHeaderKey (key hdr)) ->
  Header (populateHTTPRequest r httpReq) !! CanonicalMIMEHeaderKey (key hdr)
    = Some [valueData_string (value hdr)].
Proof.
  intros Hhdrs Hlast. unfold populateHTTPRequest. simpl. rewrite Hhdrs.
  rewrite setHeaders_app, setHeaders_cons.
  rewrite setHeaders_other by exact Hlast.
  unfold Header_Set. apply lookup_insert_eq.
Qed.

Lemma applyOp_bodyInv op r :
  (forall v s, json_Marshal v = inl s -> s <> "") ->
  bodyInv r -> bodyInv (applyOp op r).
Proof.
  intros Hjson Hinv. destruct op; simpl; try exact Hinv.
  - unfold bodyInv. simpl. split; [| reflexivity].
    intros _. right. destruct (bodyKV r); discriminate.
  - unfold SetBodyJSON. destruct (json_Marshal v) as [s|e] eqn:Hm; simpl;
      [| exact Hinv].
    unfold bodyInv. simpl. split; [| reflexivity].
    intros _. left. eapply Hjson. exact Hm.
Qed.

Lemma applyOps_bodyInv ops r :
  (forall v s, json_Marshal v = inl s -> s <> "") ->
  bodyInv r -> bodyInv (applyOps ops r).
Proof.
  intros Hjson. revert r. induction ops as [|op ops IH]; intros r Hinv;
    [exact Hinv |].
  simpl. apply IH. apply applyOp_bodyInv; assumption.
Qed.

Lemma bodyInv_bodyString r :
  bodyInv r -> hasBody r = true -> bodyString r <> None.
Proof.
  intros Hinv Hbody. unfold bodyString.
  destruct (proj1 Hinv Hbody) as [Htxt|Hkv].
  - destruct (bodyTXT r); [congruence | discriminate].
  - destruct (0 <? String.length (bodyTXT r))%nat; [discriminate |].
    destruct (bodyKV r); [congruence | discriminate].
Qed.

(** C10. For a request made by [NewRequest] and configured by any sequence
    of builder operations, [hasBody] holds exactly when [bodyTXT] or
    [bodyKV] is not empty, given that a successful [json.Marshal] returns a
    text that is not empty; so the reader that [genHTTPReq] passes on when
    [hasBody] holds is not nil, and [genHTTPReq] does not panic. *)
Theorem builder_body_invariant e w r0 w' ops :
  (forall v s, json_Marshal v = inl s -> s <> "") ->
  NewRequest e w = Done r0 w' ->
  let r := applyOps ops r0 in
  (hasBody r = true <-> (bodyTXT r <> "" \/ bodyKV r <> []))
  /\ (hasBody r = true -> bodyString r <> None)
  /\ (forall method epURL, genHTTPReq r method epURL <> None).
Proof.
  intros Hjson Hnew r.
  assert (Hinv0 : bodyInv r0).
  { revert Hnew. unfold NewRequest, mbind, M_bind.
    destruct (deref _ w) as [opts w1| |]; try discriminate.
    simpl. intros [= <- _]. unfold bodyInv. simpl.
    split; [discriminate | intros [?|?]; congruence]. }
  assert (Hinv : bodyInv r) by (apply applyOps_bodyInv; assumption).
  split; [exact Hinv |]. split; [apply bodyInv_bodyString; exact Hinv |].
  intros method epURL. unfold genHTTPReq, http_NewRequest.
  destruct (hasBody r) eqn:Hbody.
  - pose proof (bodyInv_bodyString r Hinv Hbody) as Hreader.
    destruct (url_Parse epURL); [| discriminate].
    destruct (bodyString r); [discriminate | congruence].
  - destruct (url_Parse epURL); discriminate.
Qed.

End Draft.

(** ** The query string *)

Global Instance string_le_refl : Reflexive string_le.
Proof.
  intros a. destruct (String.leb_total a a); assumption.
Qed.

Global Instance string_le_total : Total string_le.
Proof. intros a b. apply String.leb_total. Qed.

Global Instance string_le_trans : Transitive string_le.
Proof.
  unfold string_le, String.leb. intros a.
  induction a as [|c1 a IH]; intros [|c2 b] [|c3 c]; simpl; try done.
  unfold Ascii.compare.
  destruct (N.compare_spec (N_of_ascii c1) (N_of_ascii c2)) as [E12|L12|G12];
    destruct (N.compare_spec (N_of_ascii c2) (N_of_ascii c3)) as [E23|L23|G23];
    destruct (N.compare_spec (N_of_ascii c1) (N_of_ascii c3)) as [E13|L13|G13];
    try done; try lia.
  apply IH.
Qed.

Lemma Values_at_Add k val v k' :
  Values_at (Values_Add k val v) k'
  = if decide (k = k') then Values_at v k ++ [val] else Values_at v k'.
Proof.
  unfold Values_Add, Values_at at 1. rewrite lookup_insert.
  destruct (decide (k = k')); reflexivity.
Qed.

Lemma pairsOf_app k l1 l2 : pairsOf k (l1 ++ l2) = pairsOf k l1 ++ pairsOf k l2.
Proof. apply filter_app. Qed.

(** What the loop over the queries leaves under one key: what was there,
    then the values added with that key, in the order of the additions. *)
Lemma Values_at_addQueries qs v k :
  pair k <$> Values_at (addQueries qs v) k
  = (pair k <$> Values_at v k) ++ pairsOf k (addedPairs qs).
Proof.
  revert v. induction qs as [|qry qs IH]; intros v.
  - simpl. rewrite app_nil_r. reflexivity.
  - change (addQueries (qry :: qs) v)
      with (addQueries qs (Values_Add (key qry) (valueData_string (value qry)) v)).
    rewrite IH, Values_at_Add.
    change (addedPairs (qry :: qs))
      with ([(key qry, valueData_string (value qry))] ++ addedPairs qs).
    rewrite pairsOf_app, app_assoc. f_equal.
    unfold pairsOf. rewrite filter_cons. simpl.
    destruct (decide (key qry = k)) as [->|Hne].
    + rewrite fmap_app. reflexivity.
    + rewrite app_nil_r. reflexivity.
Qed.

Lemma Values_keys_spec (v : gmap string (list string)) :
  StronglySorted string_le (Values_keys v)
  /\ NoDup (Values_keys v)
  /\ forall k, k ∈ Values_keys v <-> is_Some (v !! k).
Proof.
  unfold Values_keys.
  pose proof (merge_sort_Permutation string_le (fst <$> map_to_list v)) as Hperm.
  split; [apply StronglySorted_merge_sort; apply _ |]. split.
  - rewrite Hperm. apply NoDup_fst_map_to_list.
  - intros k. rewrite Hperm, list_elem_of_fmap. split.
    + intros ([k' x] & -> & Hin). apply elem_of_map_to_list in Hin.
      exists x. exact Hin.
    + intros [x Hx]. exists (k, x). split; [reflexivity |].
      apply elem_of_map_to_list. exact Hx.
Qed.

Lemma pairsOf_block k k' (vs : list string) :
  pairsOf k (pair k' <$> vs) = if decide (k' = k) then pair k' <$> vs else [].
Proof.
  unfold pairsOf. induction vs as [|x vs IH].
  - destruct (decide (k' = k)); reflexivity.
  - rewrite fmap_cons, filter_cons, IH. cbn [fst].
    destruct (decide (k' = k)); reflexivity.
Qed.

Lemma pairsOf_blocks (f : string -> list string) ks k :
  NoDup ks ->
  pairsOf k (flat_map (fun k' => pair k' <$> f k') ks)
  = if decide (k ∈ ks) then pair k <$> f k else [].
Proof.
  induction 1 as [|k' ks Hnotin Hnodup IH]; simpl.
  - destruct (decide (k ∈ [])) as [Hin|]; [| reflexivity].
    inversion Hin.
  - rewrite pairsOf_app, pairsOf_block, IH.
    destruct (decide (k' = k)) as [->|Hne].
    + rewrite decide_False by exact Hnotin.
      rewrite decide_True by left. apply app_nil_r.
    + destruct (decide (k ∈ ks)) as [Hin|Hnin].
      * rewrite decide_True by (right; exact Hin). reflexivity.
      * rewrite decide_False; [reflexivity |].
        intros Hin. apply elem_of_cons in Hin as [->|Hin]; contradiction.
Qed.

(** The pairs that [Encode] writes for one key are the values stored under
    that key, in their order. *)
Lemma pairsOf_Values_pairs v k :
  pairsOf k (Values_pairs v) = pair k <$> Values_at v k.
Proof.
  destruct (Values_keys_spec v) as (_ & Hnodup & Hkeys).
  unfold Values_pairs. rewrite pairsOf_blocks by exact Hnodup.
  destruct (decide (k ∈ Values_keys v)) as [Hin|Hnin]; [reflexivity |].
  unfold Values_at. destruct (v !! k) eqn:Hk; [| reflexivity].
  exfalso. apply Hnin, Hkeys. exists l. exact Hk.
Qed.

Lemma blocks_keys (f : string -> list string) ks k :
  k ∈ (flat_map (fun k' => pair k' <$> f k') ks).*1 -> k ∈ ks.
Proof.
  induction ks as [|k' ks IH]; simpl; [intros Hin; inversion Hin |].
  rewrite fmap_app, elem_of_app. intros [Hin|Hin].
  - rewrite <- list_fmap_compose in Hin.
    apply list_elem_of_fmap in Hin as (x & -> & _). left.
  - right. apply IH. exact Hin.
Qed.

Lemma blocks_sorted (f : string -> list string) ks :
  StronglySorted string_le ks ->
  StronglySorted string_le (flat_map (fun k' => pair k' <$> f k') ks).*1.
Proof.
  induction 1 as [|k' ks Hsorted IH Hall]; simpl; [constructor |].
  rewrite fmap_app. apply StronglySorted_app_2; [| | exact IH].
  - intros x1 x2 Hx1 Hx2.
    rewrite <- list_fmap_compose in Hx1.
    apply list_elem_of_fmap in Hx1 as (x & -> & _). simpl.
    apply blocks_keys in Hx2.
    rewrite Forall_forall in Hall. apply Hall. exact Hx2.
  - rewrite <- list_fmap_compose.
    induction (f k') as [|x vs IHvs]; simpl; constructor; [exact IHvs |].
    apply Forall_forall. intros y Hy.
    apply list_elem_of_fmap in Hy as (z & -> & _). simpl. reflexivity.
Qed.

(** The keys of the pairs that [Encode] writes ascend. *)
Lemma Values_pairs_sorted v : StronglySorted string_le (Values_pairs v).*1.
Proof.
  unfold Values_pairs. apply blocks_sorted.
  apply (Values_keys_spec v).
Qed.

Section Query.
Context `{GoLib}.

(** C3 (amended). The query string that [populateHTTPRequest] and
    [RawQueryURL] write is the [&]-joined list of the escaped [key=value]
    pairs in ascending order of the keys, not in the order of the additions.
    Under one key the pairs are those the endpoint URL already had, followed
    by the additions with that key in their order; so a key that the URL
    does not have and that is added [n] times appears [n] times. *)
Theorem query_sorted_by_key r httpReq :
  let base := url_ParseQuery (RawQuery (rURL httpReq)) in
  let q := addQueries (queries r) base in
  RawQuery (rURL (populateHTTPRequest r httpReq))
    = String.concat "&" (encodePair <$> Values_pairs q)
  /\ (url_Parse (URL (endPoint r)) = inl (rURL httpReq) ->
      RawQueryURL r
        = Some (URL_String (set_RawQuery
                  (String.concat "&" (encodePair <$> Values_pairs q))
                  (rURL httpReq)), None))
  /\ StronglySorted string_le (Values_pairs q).*1
  /\ (forall k, pairsOf k (Values_pairs q)
                = (pair k <$> Values_at base k) ++ pairsOf k (addedPairs (queries r)))
  /\ (forall k, Values_at base k = [] ->
                length (pairsOf k (Values_pairs q))
                = length (pairsOf k (addedPairs (queries r)))).
Proof.
  intros base q.
  assert (Hkey : forall k, pairsOf k (Values_pairs q)
            = (pair k <$> Values_at base k) ++ pairsOf k (addedPairs (queries r))).
  { intros k. rewrite pairsOf_Values_pairs. apply Values_at_addQueries. }
  split; [reflexivity |]. split; [| split; [| split]].
  - intros Hparse. unfold RawQueryURL, http_NewRequest. rewrite Hparse.
    reflexivity.
  - apply Values_pairs_sorted.
  - exact Hkey.
  - intros k Hnone. rewrite Hkey, Hnone. reflexivity.
Qed.

End Query.

(** [RawQueryURL] passes the nil interface as the body, so it returns. *)
Lemma RawQueryURL_returns `{GoLib} r : RawQueryURL r <> None.
Proof.
  unfold RawQueryURL, http_NewRequest.
  destruct (url_Parse (URL (endPoint r))); discriminate.
Qed.

(** The spec's example: [a=1], [a=2], [b=x] in this order. *)
Example RawQueryURL_spec_example :
  RawQueryURL (H := plainLib)
    (AddQuery "b" "x" (AddQuery "a" "2" (AddQuery "a" "1" exRequest)))
  = Some ("https://api.example.com/v1/items?a=1&a=2&b=x", None).
Proof. vm_compute. reflexivity. Qed.

(** C3, as stated, fails: [b=x] is added first and [a=1] second, and the
    query string is [a=1&b=x]. *)
Lemma query_insertion_order_counterexample :
  let r := AddQuery "a" "1" (AddQuery "b" "x" exRequest) in
  addedPairs (queries r) = [("b", "x"); ("a", "1")]
  /\ RawQueryURL (H := plainLib) r
     = Some ("https://api.example.com/v1/items?a=1&b=x", None)
  /\ Values_pairs (addQueries (queries r) ∅) <> addedPairs (queries r).
Proof.
  split; [reflexivity |]. split; [vm_compute; reflexivity |].
  vm_compute. discriminate.
Qed.

(** ** The draft on concrete inputs *)

(** The draft made in a world where the API's options are a timeout of
    100 ms and two retries keeps them when the API's cell is overwritten. *)
Lemma NewRequest_copies_options_witness :
  exists r w' l,
    NewRequest exEndpoint (exWorldBefore (mkOptions 100 2) exFast) = Done r w'
    /\ reqOptions r = Some l
    /\ l <> 1%positive
    /\ heap (exWorldBefore (mkOptions 100 2) exFast) !! l = None
    /\ optionsOf r w' = Some (mkOptions 100 2)
    /\ forall w2, (forall l', l' <> 1%positive -> heap w2 !! l' = heap w' !! l') ->
                  optionsOf r w2 = Some (mkOptions 100 2).
Proof.
  apply (NewRequest_copies_options exEndpoint
           (exWorldBefore (mkOptions 100 2) exFast) 1%positive (mkOptions 100 2)).
  - reflexivity.
  - reflexivity.
Defined.

Example NewRequest_example :
  NewRequest exEndpoint (exWorldBefore (mkOptions 100 2) exFast)
  = Done exRequest (exWorld (mkOptions 100 2) exFast).
Proof. vm_compute. reflexivity. Qed.

(** [X-Token] added twice: the request carries the second value only. *)
Lemma populateHTTPRequest_header_last_wins_witness :
  Header (populateHTTPRequest (H := plainLib) exTwoHeaders
            {| Method := "GET";
               rURL := {| u_head := "https://api.example.com/v1/items";
                          ForceQuery := false; RawQuery := ""; u_frag := "" |};
               Header := ∅; rBody := None |})
    !! "X-Token"
  = Some ["two"].
Proof.
  refine (populateHTTPRequest_header_last_wins (H := plainLib) exTwoHeaders _
            [ {| key := "X-Token";
                 value := {| v_is := vdtString; v_s := "one"; v_i := 0;
                             v_b := false |} |} ]
            {| key := "X-Token";
               value := {| v_is := vdtString; v_s := "two"; v_i := 0;
                           v_b := false |} |}
            [] _ _).
  - reflexivity.
  - intros hdr' Hin. inversion Hin.
Defined.

Lemma plain_json_Marshal_nonempty v s :
  plain_json_Marshal v = inl s -> s <> "".
Proof.
  destruct v as [|b|i|]; intros [= <-]; try discriminate.
  - destruct b; discriminate.
  - unfold strconv_Itoa. destruct (Z.to_int i) as [d|d]; simpl;
      [destruct d; discriminate | discriminate].
Qed.

(** The invariant after five builder calls on a new draft. *)
Lemma builder_body_invariant_witness :
  let r := applyOps (H := plainLib) exOps exRequest in
  (hasBody r = true <-> (bodyTXT r <> "" \/ bodyKV r <> []))
  /\ (hasBody r = true -> bodyString r <> None)
  /\ (forall method epURL, genHTTPReq (H := plainLib) r method epURL <> None).
Proof.
  apply (builder_body_invariant (H := plainLib) exEndpoint
           (exWorldBefore (mkOptions 100 2) exFast) exRequest
           (exWorld (mkOptions 100 2) exFast) exOps).
  - exact plain_json_Marshal_nonempty.
  - vm_compute. reflexivity.
Defined.

Example builder_body_example :
  let r := applyOps (H := plainLib) exOps exRequest in
  hasBody r = true /\ bodyTXT r = "7" /\ length (bodyKV r) = 1%nat
  /\ bodyString r = Some "7".
Proof. vm_compute. repeat split. Qed.

(** * Further properties of the executor *)

Section Executor.
Context `{GoLib}.

(** What the loop of [GET] does to the world, and what it returns: after
    [k] iterations the world has [k] more calls and [k] more sleeps of
    500 ms, and a result returned from inside the loop is the outcome, with
    a nil error, of the last of these calls. *)
Lemma retryLoop_shape fuel : forall r retry w inner w',
  retryLoop fuel r retry w = Done inner w' ->
  exists k : nat,
    w' = advance k (500 * Z.of_nat k) w
    /\ match inner with
       | None => True
       | Some out =>
           (1 <= k)%nat /\ out.2 = None
           /\ callAPIWithTimeout "GET" r (advance (k - 1) (500 * Z.of_nat k) w)
              = Done out (advance k (500 * Z.of_nat k) w)
       end.
Proof.
  induction fuel as [|fuel IH]; intros r retry w inner w'; [discriminate |].
  cbn [retryLoop]. unfold mbind, M_bind, deref.
  destruct (reqOptions r ≫= _) as [opts|]; [| discriminate].
  destruct (retry <=? retries opts).
  - unfold sleep. set (ws := mkWorld _ _ _ _).
    destruct (callAPIWithTimeout "GET" r ws) as [[res err] wc| |] eqn:Hcall;
      try discriminate.
    pose proof (callAPIWithTimeout_world _ _ _ _ _ Hcall) as ->.
    destruct err as [e|]; simpl.
    + intros Hrec. apply IH in Hrec as (k & -> & Hinner).
      exists (S k). split; [subst ws; world_eq |].
      destruct inner as [out|]; [| exact I].
      destruct Hinner as (Hk & Hnil & Hlast).
      split; [lia |]. split; [exact Hnil |].
      replace (advance (S k - 1) (500 * Z.of_nat (S k)) w)
        with (advance (k - 1) (500 * Z.of_nat k) (advance 1 0 ws))
        by (subst ws; world_eq).
      replace (advance (S k) (500 * Z.of_nat (S k)) w)
        with (advance k (500 * Z.of_nat k) (advance 1 0 ws))
        by (subst ws; world_eq).
      exact Hlast.
    + unfold mret, M_ret. intros [= <- <-].
      exists 1%nat. split; [subst ws; world_eq |].
      split; [lia |]. split; [reflexivity |].
      replace (advance (1 - 1) (500 * Z.of_nat 1) w) with ws
        by (subst ws; world_eq).
      replace (advance 1 (500 * Z.of_nat 1) w) with (advance 1 0 ws)
        by (subst ws; world_eq).
      exact Hcall.
  - unfold mret, M_ret. intros [= <- <-]. exists 0%nat.
    split; [world_eq | exact I].
Qed.

(** X1. Whenever [GET] returns, it has made [k + 1] calls and slept [k]
    times 500 ms for some [k], it has changed nothing else (the heap and the
    network are those of [advance]), and what it returns is the outcome of
    its first attempt, or the outcome of its last attempt, which then has a
    nil error. *)
Theorem GET_outcome_and_world fuel r w out w' :
  GET fuel r w = Done out w' ->
  exists k : nat,
    w' = advance (k + 1) (500 * Z.of_nat k) w
    /\ (callAPIWithTimeout "GET" r w = Done out (advance 1 0 w)
        \/ ((1 <= k)%nat /\ out.2 = None
            /\ callAPIWithTimeout "GET" r (attemptWorld w k)
               = Done out (advance 1 0 (attemptWorld w k)))).
Proof.
  unfold GET, mbind, M_bind.
  destruct (callAPIWithTimeout "GET" r w) as [[res err] w1| |] eqn:Hfirst;
    try discriminate.
  pose proof (callAPIWithTimeout_world _ _ _ _ _ Hfirst) as ->. simpl.
  destruct err as [e|].
  - unfold deref. destruct (reqOptions r ≫= _) as [opts|]; [| discriminate].
    destruct (0 <? retries opts).
    + destruct (retryLoop fuel r 1 (advance 1 0 w)) as [inner w2| |] eqn:Hloop;
        try discriminate.
      apply retryLoop_shape in Hloop as (k & -> & Hinner).
      destruct inner as [returned|]; unfold mret, M_ret; intros [= <- <-];
        exists k; (split; [world_eq |]).
      * right. destruct Hinner as (Hk & Hnil & Hlast).
        split; [exact Hk |]. split; [exact Hnil |].
        replace (attemptWorld w k)
          with (advance (k - 1) (500 * Z.of_nat k) (advance 1 0 w))
          by (unfold attemptWorld; world_eq).
        rewrite Hlast. f_equal. world_eq.
      * left. reflexivity.
    + unfold mret, M_ret. intros [= <- <-]. exists 0%nat.
      split; [world_eq | left; reflexivity].
  - unfold mret, M_ret. intros [= <- <-]. exists 0%nat.
    split; [world_eq | left; reflexivity].
Qed.

(** What [GET] returns is what one of its attempts returned. *)
Lemma GET_returns_an_attempt fuel r w out w' :
  GET fuel r w = Done out w' ->
  exists wi wi', callAPIWithTimeout "GET" r wi = Done out wi'.
Proof.
  unfold GET, mbind, M_bind.
  destruct (callAPIWithTimeout "GET" r w) as [[res err] w1| |] eqn:Hfirst;
    try discriminate.
  simpl. destruct err as [e|].
  - unfold deref. destruct (reqOptions r ≫= _) as [opts|]; [| discriminate].
    destruct (0 <? retries opts).
    + destruct (retryLoop fuel r 1 w1) as [inner w2| |] eqn:Hloop;
        try discriminate.
      apply retryLoop_shape in Hloop as (k & -> & Hinner).
      destruct inner as [returned|]; unfold mret, M_ret; intros [= <- <-].
      * destruct Hinner as (_ & _ & Hlast). eauto.
      * eauto.
    + unfold mret, M_ret. intros [= <- <-]. eauto.
  - unfold mret, M_ret. intros [= <- <-]. eauto.
Qed.



(** The two shapes of what [callAPI] returns: no response and a
    [PackageError] around a formatted error, or a response with, for a
    status other than 200, its [QueryError]. *)
Lemma callAPI_outcome method r w res err w' :
  callAPI method r w = Done (res, err) w' ->
  (res = None
   /\ exists msg e, err = Some (PackageError (Some (Errorf msg e))))
  \/ (exists rv, res = Some rv
       /\ ((Status rv = 200 /\ err = None)
           \/ (Status rv <> 200
               /\ err = Some (QueryError (Status rv) (Body rv) r)))).
Proof.
  unfold callAPI, mbind, M_bind, nextAttempt, panic, mret, M_ret.
  destruct (genHTTPReq r method (URL (endPoint r))) as [[httpReq|e]|];
    [| intros [= <- <- _]; left; eauto | discriminate].
  destruct (roundTrip _ _) as [e|status e|status body];
    try (intros [= <- <- _]; left; eauto).
  unfold newResponse, http_StatusOK. simpl.
  destruct (Z.eqb_spec status 200) as [->|Hne]; simpl;
    intros [= <- <- _]; right; eexists; (split; [reflexivity |]); simpl.
  - left. split; reflexivity.
  - right. split; [exact Hne | reflexivity].
Qed.

Lemma callAPIWithTimeout_outcome method r w out w' :
  callAPIWithTimeout method r w = Done out w' ->
  (out.2 = None -> exists body, out.1 = Some {| Status := 200; Body := body |})
  /\ (out.1 = None -> out.2 <> None).
Proof.
  unfold callAPIWithTimeout, mbind, M_bind, deref.
  destruct (reqOptions r ≫= _) as [opts|]; [| discriminate].
  destruct (timeout opts <=? 0).
  - destruct out as [res err]. intros Hcall.
    apply callAPI_outcome in Hcall
      as [(-> & msg & e & ->)|(rv & -> & [(H200 & ->)|(Hne & ->)])];
      simpl; split; try discriminate.
    intros _. destruct rv as [status body]. simpl in H200. subst status.
    exists body. reflexivity.
  - unfold peekAttempt.
    destruct (callAPI method r w) as [resp w1| |]; try discriminate.
    destruct (timerFirst _ _); unfold mret, M_ret; intros [= <- _]; simpl;
      split; discriminate.
Qed.

(** X3. What [GET] and [POST] return is never a nil response with a nil
    error, and a nil error comes only with a response of status 200. *)
Theorem execution_outcome fuel r w out w' :
  POST r w = Done out w' \/ GET fuel r w = Done out w' ->
  (out.2 = None -> exists body, out.1 = Some {| Status := 200; Body := body |})
  /\ (out.1 = None -> out.2 <> None).
Proof.
  intros [Hpost|Hget].
  - eapply callAPIWithTimeout_outcome. exact Hpost.
  - apply GET_returns_an_attempt in Hget as (wi & wi' & Hcall).
    eapply callAPIWithTimeout_outcome. exact Hcall.
Qed.

(** X4. [GET] returns the first outcome with a nil error: when the attempts
    before the attempt number [j] fail and that one does not, and [j] is
    within the retries, [GET] returns its outcome after [j + 1] calls and
    [j] sleeps of 500 ms, and makes no further attempt. *)
Theorem GET_returns_first_success fuel r w opts (n j : nat) outj wj :
  optionsOf r w = Some opts ->
  retries opts = Z.of_nat n ->
  Z.of_nat n < 2 ^ 64 - 1 ->
  (j <= n)%nat ->
  (j <= fuel)%nat ->
  (forall i, (i < j)%nat ->
     exists out w', callAPIWithTimeout "GET" r (attemptWorld w i) = Done out w'
                    /\ out.2 <> None) ->
  callAPIWithTimeout "GET" r (attemptWorld w j) = Done outj wj ->
  outj.2 = None ->
  GET fuel r w = Done outj (advance (j + 1) (500 * Z.of_nat j) w).
Proof.
  intros Hopts Hn Hbound Hj Hfuel Hfail Hcall Hok.
  assert (H0 : attemptWorld w 0 = w) by (unfold attemptWorld; world_eq).
  destruct j as [|j].
  - rewrite H0 in Hcall. destruct outj as [res err]. simpl in Hok. subst err.
    rewrite (GET_first_success fuel r w res wj Hcall). f_equal; world_eq.
  - destruct (Hfail 0%nat ltac:(lia)) as (out0 & w1 & Hfirst & Herr).
    rewrite H0 in Hfirst.
    pose proof (callAPIWithTimeout_world _ _ _ _ _ Hcall) as ->.
    eapply GET_retry_success; try eassumption; try lia.
    intros i Hi. apply Hfail. lia.
Qed.

(** X5. With a positive timeout [GET] never stops early: no attempt returns
    a nil error, so it makes all [retries + 1] attempts and then returns
    what the first attempt returned. *)
Theorem GET_positive_timeout_all_attempts fuel r w opts (n : nat) :
  optionsOf r w = Some opts ->
  0 < timeout opts ->
  retries opts = Z.of_nat n ->
  Z.of_nat n < 2 ^ 64 - 1 ->
  (n < fuel)%nat ->
  genHTTPReq r "GET" (URL (endPoint r)) <> None ->
  exists out,
    callAPIWithTimeout "GET" r w = Done out (advance 1 0 w)
    /\ out.2 <> None
    /\ GET fuel r w = Done out (advance (n + 1) (500 * Z.of_nat n) w).
Proof.
  intros Hopts Hpos Hn Hbound Hfuel Hgen.
  destruct (callAPIWithTimeout_Done "GET" r w opts Hopts Hgen) as [out Hfirst].
  assert (Herr : out.2 <> None)
    by (eapply callAPIWithTimeout_positive_error; eassumption).
  exists out. split; [exact Hfirst |]. split; [exact Herr |].
  eapply GET_exhausted; try eassumption.
  intros i _.
  destruct (callAPIWithTimeout_Done "GET" r (attemptWorld w i) opts Hopts Hgen)
    as [outi Hcall].
  exists outi, (advance 1 0 (attemptWorld w i)). split; [exact Hcall |].
  eapply (callAPIWithTimeout_positive_error "GET" r (attemptWorld w i));
    eassumption.
Qed.

(** An endpoint URL that does not parse: [callAPI] fails before anything is
    sent, whatever the network would answer. *)
Lemma callAPI_bad_URL method r w e :
  url_Parse (URL (endPoint r)) = inr e ->
  callAPI method r w
  = Done (None, Some (PackageError (Some
            (Errorf ("error in " +:+ method +:+ "(): creating *http.Request") e))))
         (advance 1 0 w).
Proof.
  intros Hparse. unfold callAPI, mbind, M_bind, nextAttempt.
  assert (Hgen : genHTTPReq r method (URL (endPoint r)) = Some (inr e)).
  { unfold genHTTPReq, http_NewRequest. rewrite Hparse.
    destruct (hasBody r); reflexivity. }
  rewrite Hgen. unfold mret, M_ret. f_equal. world_eq.
Qed.

(** X6. With an endpoint URL that does not parse and no timeout, [POST]
    returns the wrapped parse error after one call; [GET] returns it too,
    but only after it has repeated the failing call for every retry, with
    the sleeps between them.  Neither result depends on the network. *)
Theorem execution_with_bad_URL fuel r w opts (n : nat) e :
  url_Parse (URL (endPoint r)) = inr e ->
  optionsOf r w = Some opts ->
  timeout opts <= 0 ->
  retries opts = Z.of_nat n ->
  Z.of_nat n < 2 ^ 64 - 1 ->
  (n < fuel)%nat ->
  POST r w
  = Done (None, Some (PackageError (Some
            (Errorf "error in POST(): creating *http.Request" e))))
         (advance 1 0 w)
  /\ GET fuel r w
     = Done (None, Some (PackageError (Some
               (Errorf "error in GET(): creating *http.Request" e))))
            (advance (n + 1) (500 * Z.of_nat n) w).
Proof.
  intros Hparse Hopts Hle Hn Hbound Hfuel.
  assert (Hsync : forall m w0, optionsOf r w0 = Some opts ->
            callAPIWithTimeout m r w0 = callAPI m r w0).
  { intros m w0 Hopts0. unfold callAPIWithTimeout, mbind, M_bind.
    rewrite (deref_optionsOf _ _ _ Hopts0).
    destruct (Z.leb_spec (timeout opts) 0); [reflexivity | lia]. }
  split.
  - unfold POST. rewrite (Hsync _ _ Hopts).
    apply (callAPI_bad_URL "POST" r w e Hparse).
  - eapply GET_exhausted; try eassumption.
    + rewrite (Hsync _ _ Hopts). apply (callAPI_bad_URL "GET" r w e Hparse).
    + discriminate.
    + intros i _. eexists _, _. split.
      * rewrite (Hsync _ (attemptWorld w i) Hopts).
        apply (callAPI_bad_URL "GET" r _ e Hparse).
      * discriminate.
Qed.

End Executor.

(** * Further properties of the materialiser *)

Section Materialiser.
Context `{GoLib}.

(** The request that [genHTTPReq] returns: the method it was given, the
    parsed endpoint URL, no header, and the body that belongs to the draft. *)
Lemma genHTTPReq_inl r method epURL httpReq :
  genHTTPReq r method epURL = Some (inl httpReq) ->
  url_Parse epURL = inl (rURL httpReq)
  /\ Method httpReq = method
  /\ Header httpReq = ∅
  /\ rBody httpReq = (if hasBody r then bodyString r else None)
  /\ (hasBody r = true -> bodyString r <> None).
Proof.
  unfold genHTTPReq, http_NewRequest.
  destruct (url_Parse epURL) as [u|e]; [| destruct (hasBody r); discriminate].
  destruct (hasBody r); [destruct (bodyString r) as [s|]; [| discriminate] |];
    intros [= <-]; repeat split; discriminate.
Qed.

(** X7. [RawQueryURL] returns, with a nil error, the URL of the request that
    an execution of the same draft sends, whatever the method and the body. *)
Theorem RawQueryURL_is_request_URL method r httpReq :
  genHTTPReq r method (URL (endPoint r)) = Some (inl httpReq) ->
  RawQueryURL r
  = Some (URL_String (rURL (populateHTTPRequest r httpReq)), None).
Proof.
  intros Hgen. apply genHTTPReq_inl in Hgen as (Hparse & _).
  unfold RawQueryURL, http_NewRequest. rewrite Hparse. reflexivity.
Qed.

Lemma pairsOf_cons k p ps :
  pairsOf k (p :: ps) = if decide (p.1 = k) then p :: pairsOf k ps else pairsOf k ps.
Proof. unfold pairsOf. rewrite filter_cons. reflexivity. Qed.

(** What the loop over the queries leaves in the map under one key: the
    entry is untouched when nothing was added under the key, and otherwise
    holds the old values followed by the added ones. *)
Lemma addQueries_lookup qs v k :
  addQueries qs v !! k
  = if decide (pairsOf k (addedPairs qs) = []) then v !! k
    else Some (Values_at v k ++ (pairsOf k (addedPairs qs)).*2).
Proof.
  revert v. induction qs as [|qry qs IH]; intros v; [reflexivity |].
  change (addQueries (qry :: qs) v)
    with (addQueries qs (Values_Add (key qry) (valueData_string (value qry)) v)).
  change (addedPairs (qry :: qs))
    with ((key qry, valueData_string (value qry)) :: addedPairs qs).
  rewrite IH, pairsOf_cons, Values_at_Add. cbn [fst].
  unfold Values_Add. rewrite lookup_insert.
  destruct (decide (key qry = k)) as [->|Hne].
  - destruct (decide (_ :: _ = [])) as [Hnil|_]; [discriminate |].
    destruct (decide (pairsOf k (addedPairs qs) = [])) as [->|Hsome].
    + reflexivity.
    + rewrite fmap_cons, <- app_assoc. reflexivity.
  - destruct (decide (pairsOf k (addedPairs qs) = [])); reflexivity.
Qed.

(** The map after the loop depends on the additions only through, for each
    key, the values added under it in their order. *)
Lemma addQueries_per_key qs1 qs2 v :
  (forall k, pairsOf k (addedPairs qs1) = pairsOf k (addedPairs qs2)) ->
  addQueries qs1 v = addQueries qs2 v.
Proof.
  intros Hsame. apply map_eq. intros k.
  rewrite !addQueries_lookup, Hsame. reflexivity.
Qed.

(** X8. An integer or boolean query is sent as the string query of its
    formatted value: the decimal digits, [true] or [false]. *)
Theorem typed_query_is_string_query k i b r httpReq :
  populateHTTPRequest (AddQueryInt k i r) httpReq
  = populateHTTPRequest (AddQuery k (strconv_Itoa i) r) httpReq
  /\ populateHTTPRequest (AddQueryBool k b r) httpReq
     = populateHTTPRequest (AddQuery k (if b then "true" else "false") r) httpReq
  /\ RawQueryURL (AddQueryInt k i r) = RawQueryURL (AddQuery k (strconv_Itoa i) r)
  /\ RawQueryURL (AddQueryBool k b r)
     = RawQueryURL (AddQuery k (if b then "true" else "false") r).
Proof.
  assert (Hint : forall v, addQueries (queries (AddQueryInt k i r)) v
                           = addQueries (queries (AddQuery k (strconv_Itoa i) r)) v).
  { intros v. apply addQueries_per_key. intros k'. f_equal.
    unfold addedPairs. simpl. rewrite !fmap_app. reflexivity. }
  assert (Hbool : forall v, addQueries (queries (AddQueryBool k b r)) v
                  = addQueries
                      (queries (AddQuery k (if b then "true" else "false") r)) v).
  { intros v. apply addQueries_per_key. intros k'. f_equal.
    unfold addedPairs. simpl. rewrite !fmap_app. destruct b; reflexivity. }
  repeat split.
  - unfold populateHTTPRequest. rewrite Hint. reflexivity.
  - unfold populateHTTPRequest. rewrite Hbool. reflexivity.
  - unfold RawQueryURL. simpl.
    destruct (http_NewRequest "GET" (URL (endPoint r)) NilReader)
      as [[httpReq0|e]|]; try reflexivity.
    rewrite Hint. reflexivity.
  - unfold RawQueryURL. simpl.
    destruct (http_NewRequest "GET" (URL (endPoint r)) NilReader)
      as [[httpReq0|e]|]; try reflexivity.
    rewrite Hbool. reflexivity.
Qed.

(** X9. The query string depends on the additions only through the values
    added under each key, in their order: two drafts on the same endpoint
    whose additions agree key by key have the same URL, however the
    additions of different keys are interleaved. *)
Theorem query_depends_on_values_per_key r1 r2 :
  endPoint r1 = endPoint r2 ->
  (forall k, pairsOf k (addedPairs (queries r1))
             = pairsOf k (addedPairs (queries r2))) ->
  RawQueryURL r1 = RawQueryURL r2
  /\ forall httpReq,
       rURL (populateHTTPRequest r1 httpReq) = rURL (populateHTTPRequest r2 httpReq).
Proof.
  intros Hep Hsame. split.
  - unfold RawQueryURL. rewrite Hep.
    destruct (http_NewRequest "GET" (URL (endPoint r2)) NilReader)
      as [[httpReq0|e]|]; try reflexivity.
    rewrite (addQueries_per_key _ _ _ Hsame). reflexivity.
  - intros httpReq. unfold populateHTTPRequest. simpl.
    rewrite (addQueries_per_key _ _ _ Hsame). reflexivity.
Qed.

(** X10. A draft with body fields and no raw text is sent with the fields
    form-encoded: the escaped [key=value] pairs joined by [&], in ascending
    order of the keys, and under one key in the order of the additions. *)
Theorem genHTTPReq_form_body method r epURL httpReq :
  genHTTPReq r method epURL = Some (inl httpReq) ->
  hasBody r = true ->
  bodyTXT r = "" ->
  let ps := Values_pairs (addQueries (bodyKV r) ∅) in
  rBody httpReq = Some (String.concat "&" (encodePair <$> ps))
  /\ StronglySorted string_le ps.*1
  /\ forall k, pairsOf k ps = pairsOf k (addedPairs (bodyKV r)).
Proof.
  intros Hgen Hbody Htxt ps.
  apply genHTTPReq_inl in Hgen as (_ & _ & _ & Hsent & Hreader).
  rewrite Hbody in Hsent. specialize (Hreader Hbody).
  split; [| split].
  - rewrite Hsent. revert Hreader. unfold bodyString. rewrite Htxt. simpl.
    destruct (0 <? length (bodyKV r))%nat; [reflexivity | congruence].
  - apply Values_pairs_sorted.
  - intros k. unfold ps. rewrite pairsOf_Values_pairs, Values_at_addQueries.
    reflexivity.
Qed.

(** The operations other than [SetBodyJSON] leave the raw text as it is, and
    no operation takes the body away. *)
Lemma applyOps_bodyTXT ops r :
  (forall v, OpSetBodyJSON v ∉ ops) ->
  bodyTXT (applyOps ops r) = bodyTXT r.
Proof.
  revert r. induction ops as [|op ops IH]; intros r Hnone; [reflexivity |].
  change (applyOps (op :: ops) r) with (applyOps ops (applyOp op r)).
  rewrite IH.
  - destruct op; try reflexivity. exfalso. apply (Hnone v). left.
  - intros v Hin. apply (Hnone v). right. exact Hin.
Qed.

Lemma applyOps_hasBody ops r :
  hasBody r = true -> hasBody (applyOps ops r) = true.
Proof.
  revert r. induction ops as [|op ops IH]; intros r Hbody; [exact Hbody |].
  change (applyOps (op :: ops) r) with (applyOps ops (applyOp op r)).
  apply IH. destruct op; try exact Hbody; try reflexivity.
  simpl. unfold SetBodyJSON. destruct (json_Marshal v); [reflexivity | exact Hbody].
Qed.

(** X11. Once [SetBodyJSON] has stored a text that is not empty, that text
    is the body that is sent: body fields added before or after it are
    not sent, as long as no later [SetBodyJSON] is called. *)
Theorem JSON_body_wins v s r ops method epURL httpReq :
  json_Marshal v = inl s ->
  s <> "" ->
  (forall v', OpSetBodyJSON v' ∉ ops) ->
  genHTTPReq (applyOps ops (applyOp (OpSetBodyJSON v) r)) method epURL
    = Some (inl httpReq) ->
  rBody httpReq = Some s.
Proof.
  intros Hjson Hne Hnone Hgen.
  set (r1 := applyOp (OpSetBodyJSON v) r) in *.
  assert (Htxt1 : bodyTXT r1 = s /\ hasBody r1 = true).
  { unfold r1. simpl. unfold SetBodyJSON. rewrite Hjson. split; reflexivity. }
  destruct Htxt1 as [Htxt1 Hbody1].
  apply genHTTPReq_inl in Hgen as (_ & _ & _ & Hsent & _).
  rewrite (applyOps_hasBody ops r1 Hbody1) in Hsent. rewrite Hsent.
  unfold bodyString. rewrite (applyOps_bodyTXT ops r1 Hnone), Htxt1.
  destruct s; [congruence | reflexivity].
Qed.



(** X13. No builder operation takes anything back: after any sequence of
    operations the endpoint and the options pointer are the same, the
    queries, headers and body fields added so far are still there, in the
    same order and before the new ones, and a draft that had a body has
    one. *)
Theorem applyOps_append_only ops r :
  endPoint (applyOps ops r) = endPoint r
  /\ reqOptions (applyOps ops r) = reqOptions r
  /\ queries r `prefix_of` queries (applyOps ops r)
  /\ headers r `prefix_of` headers (applyOps ops r)
  /\ bodyKV r `prefix_of` bodyKV (applyOps ops r)
  /\ (hasBody r = true -> hasBody (applyOps ops r) = true).
Proof.
  revert r. induction ops as [|op ops IH]; intros r.
  - repeat split; try reflexivity. intros Hbody. exact Hbody.
  - change (applyOps (op :: ops) r) with (applyOps ops (applyOp op r)).
    destruct (IH (applyOp op r)) as (Hep & Hopt & Hq & Hh & Hb & _).
    assert (Hstep : endPoint (applyOp op r) = endPoint r
                    /\ reqOptions (applyOp op r) = reqOptions r
                    /\ queries r `prefix_of` queries (applyOp op r)
                    /\ headers r `prefix_of` headers (applyOp op r)
                    /\ bodyKV r `prefix_of` bodyKV (applyOp op r)).
    { destruct op; simpl; repeat split;
        try reflexivity; try (apply prefix_app_r; reflexivity);
        unfold SetBodyJSON; destruct (json_Marshal v); reflexivity. }
    destruct Hstep as (Hep1 & Hopt1 & Hq1 & Hh1 & Hb1).
    repeat split.
    + rewrite Hep. exact Hep1.
    + rewrite Hopt. exact Hopt1.
    + etransitivity; eassumption.
    + etransitivity; eassumption.
    + etransitivity; eassumption.
    + apply (applyOps_hasBody (op :: ops) r).
Qed.

(** X15. After [FormEncoded] the request is sent with the form content
    type as its only [Content-Type], whatever headers the draft had,
    another [Content-Type] included. *)
Theorem FormEncoded_sets_content_type r httpReq :
  Header (populateHTTPRequest (FormEncoded r) httpReq)
    !! CanonicalMIMEHeaderKey "Content-Type"
  = Some ["application/x-www-form-urlencoded"].
Proof.
  unfold populateHTTPRequest, FormEncoded, AddHeader. simpl.
  rewrite setHeaders_app, setHeaders_cons. simpl.
  unfold Header_Set. apply lookup_insert_eq.
Qed.

End Materialiser.

(** * Further properties of the draft *)

(** What [NewRequest] returns when it returns: an empty draft whose options
    are a new cell with the contents of the API's cell. *)
Lemma NewRequest_inv e w r w' :
  NewRequest e w = Done r w' ->
  exists l0 opts,
    apiOptions (parent e) = Some l0
    /\ heap w !! l0 = Some opts
    /\ r = {| endPoint := e; queries := []; headers := []; bodyKV := [];
              bodyTXT := ""; hasBody := false;
              reqOptions := Some (fresh (dom (heap w))) |}
    /\ w' = {| heap := <[fresh (dom (heap w)) := opts]> (heap w);
               net := net w; calls := calls w; slept := slept w |}.
Proof.
  unfold NewRequest, mbind, M_bind, deref.
  destruct (apiOptions (parent e)) as [l0|]; [| discriminate]. simpl.
  destruct (heap w !! l0) as [opts|] eqn:Hcell; [| discriminate].
  unfold alloc, mret, M_ret. intros [= <- <-].
  exists l0, opts. repeat split. exact Hcell.
Qed.

(** X14. Two drafts never share their options, and making a draft touches
    nothing else: the second draft's cell is not the first one's, whatever
    is written to it leaves the first draft's options as they were, the
    cells that existed keep their contents, and no call is made. *)
Theorem NewRequest_drafts_independent e1 e2 w r1 w1 r2 w2 :
  NewRequest e1 w = Done r1 w1 ->
  NewRequest e2 w1 = Done r2 w2 ->
  exists l1 l2,
    reqOptions r1 = Some l1 /\ reqOptions r2 = Some l2 /\ l1 <> l2
    /\ (forall w3, (forall l, l <> l2 -> heap w3 !! l = heap w2 !! l) ->
                   optionsOf r1 w3 = optionsOf r1 w1)
    /\ (forall l, is_Some (heap w !! l) -> heap w2 !! l = heap w !! l)
    /\ calls w2 = calls w /\ slept w2 = slept w.
Proof.
  intros Hnew1 Hnew2.
  apply NewRequest_inv in Hnew1 as (a1 & o1 & _ & _ & -> & ->).
  apply NewRequest_inv in Hnew2 as (a2 & o2 & _ & _ & -> & ->). simpl.
  set (l1 := fresh (dom (heap w))).
  set (l2 := fresh (dom (<[l1 := o1]> (heap w)))).
  assert (Hl1 : heap w !! l1 = None)
    by (apply not_elem_of_dom, is_fresh).
  assert (Hl2 : <[l1 := o1]> (heap w) !! l2 = None)
    by (apply not_elem_of_dom, is_fresh).
  assert (Hne : l1 <> l2).
  { intros Heq. rewrite <- Heq, lookup_insert_eq in Hl2. discriminate. }
  exists l1, l2. repeat split; try reflexivity; try exact Hne.
  - intros w3 Hsame. unfold optionsOf. simpl.
    rewrite (Hsame l1 Hne), lookup_insert_ne by congruence. reflexivity.
  - intros l [o Hl].
    assert (Hl1' : l1 <> l) by congruence.
    assert (Hl2' : l2 <> l).
    { intros Heq. rewrite Heq, lookup_insert_ne in Hl2 by exact Hl1'.
      congruence. }
    rewrite lookup_insert_ne by exact Hl2'.
    rewrite lookup_insert_ne by exact Hl1'. reflexivity.
Qed.

(** * The further properties on concrete inputs *)

(** Two retries, status 503 twice and then 200: three calls, two sleeps,
    and the outcome of the last attempt. *)
Lemma GET_outcome_and_world_witness :
  exists k : nat,
    advance 3 1000 (exWorld (mkOptions 0 2) exThirdSucceeds)
    = advance (k + 1) (500 * Z.of_nat k) (exWorld (mkOptions 0 2) exThirdSucceeds)
    /\ (callAPIWithTimeout (H := plainLib) "GET" exRequest
          (exWorld (mkOptions 0 2) exThirdSucceeds)
        = Done (Some {| Status := 200; Body := "ok" |}, None)
               (advance 1 0 (exWorld (mkOptions 0 2) exThirdSucceeds))
        \/ ((1 <= k)%nat
            /\ (Some {| Status := 200; Body := "ok" |}, @None error).2 = None
            /\ callAPIWithTimeout (H := plainLib) "GET" exRequest
                 (attemptWorld (exWorld (mkOptions 0 2) exThirdSucceeds) k)
               = Done (Some {| Status := 200; Body := "ok" |}, None)
                      (advance 1 0
                         (attemptWorld (exWorld (mkOptions 0 2) exThirdSucceeds) k)))).
Proof.
  apply (GET_outcome_and_world (H := plainLib) 2 exRequest
           (exWorld (mkOptions 0 2) exThirdSucceeds)).
  vm_compute. reflexivity.
Defined.


(** The outcome of a [GET] that ends with status 500 after one retry. *)
Lemma execution_outcome_witness :
  ((Some {| Status := 500; Body := "a" |},
    Some (QueryError 500 "a" exRequest)).2 = None ->
   exists body,
     (Some {| Status := 500; Body := "a" |},
      Some (QueryError 500 "a" exRequest)).1
     = Some {| Status := 200; Body := body |})
  /\ ((Some {| Status := 500; Body := "a" |},
       Some (QueryError 500 "a" exRequest)).1 = None ->
      (Some {| Status := 500; Body := "a" |},
       Some (QueryError 500 "a" exRequest)).2 <> None).
Proof.
  apply (execution_outcome (H := plainLib) 2 exRequest
           (exWorld (mkOptions 0 1) exTwoFailures)
           (Some {| Status := 500; Body := "a" |},
            Some (QueryError 500 "a" exRequest))
           (advance 2 500 (exWorld (mkOptions 0 1) exTwoFailures))).
  right. vm_compute. reflexivity.
Defined.

(** Two retries, status 503 twice and then 200: the success of the third
    attempt is returned. *)
Lemma GET_returns_first_success_witness :
  GET (H := plainLib) 2 exRequest (exWorld (mkOptions 0 2) exThirdSucceeds)
  = Done (Some {| Status := 200; Body := "ok" |}, None)
         (advance (2 + 1) (500 * Z.of_nat 2)
            (exWorld (mkOptions 0 2) exThirdSucceeds)).
Proof.
  apply (GET_returns_first_success (H := plainLib) 2 exRequest
           (exWorld (mkOptions 0 2) exThirdSucceeds) (mkOptions 0 2) 2 2
           (Some {| Status := 200; Body := "ok" |}, None)
           (advance 1 0 (attemptWorld (exWorld (mkOptions 0 2) exThirdSucceeds) 2))).
  - reflexivity.
  - reflexivity.
  - lia.
  - lia.
  - lia.
  - intros i Hi. destruct i as [|[|i]]; [| | lia];
      eexists _, _; (split; [vm_compute; reflexivity | discriminate]).
  - vm_compute. reflexivity.
  - reflexivity.
Defined.

(** Two retries and a timeout of 1000 ms against a server that answers
    after 5 ms: all three attempts are made. *)
Lemma GET_positive_timeout_all_attempts_witness :
  exists out,
    callAPIWithTimeout (H := plainLib) "GET" exRequest
      (exWorld (mkOptions 1000 2) exFast)
    = Done out (advance 1 0 (exWorld (mkOptions 1000 2) exFast))
    /\ out.2 <> None
    /\ GET (H := plainLib) 3 exRequest (exWorld (mkOptions 1000 2) exFast)
       = Done out (advance (2 + 1) (500 * Z.of_nat 2)
                     (exWorld (mkOptions 1000 2) exFast)).
Proof.
  apply (GET_positive_timeout_all_attempts (H := plainLib) 3 exRequest
           (exWorld (mkOptions 1000 2) exFast) (mkOptions 1000 2) 2).
  - reflexivity.
  - simpl. lia.
  - reflexivity.
  - lia.
  - lia.
  - vm_compute. discriminate.
Defined.

(** An endpoint URL that starts with a tab, two retries: one call for
    [POST], three for [GET]. *)
Lemma execution_with_bad_URL_witness :
  POST (H := plainLib) exBadRequest (exWorld (mkOptions 0 2) exFast)
  = Done (None, Some (PackageError (Some
            (Errorf "error in POST(): creating *http.Request"
               (LibError "net/url: invalid control character in URL")))))
         (advance 1 0 (exWorld (mkOptions 0 2) exFast))
  /\ GET (H := plainLib) 3 exBadRequest (exWorld (mkOptions 0 2) exFast)
     = Done (None, Some (PackageError (Some
               (Errorf "error in GET(): creating *http.Request"
                  (LibError "net/url: invalid control character in URL")))))
            (advance (2 + 1) (500 * Z.of_nat 2) (exWorld (mkOptions 0 2) exFast)).
Proof.
  apply (execution_with_bad_URL (H := plainLib) 3 exBadRequest
           (exWorld (mkOptions 0 2) exFast) (mkOptions 0 2) 2
           (LibError "net/url: invalid control character in URL")).
  - vm_compute. reflexivity.
  - reflexivity.
  - simpl. lia.
  - reflexivity.
  - lia.
  - lia.
Defined.

(** The URL of a [POST] with a body and two queries is the one that
    [RawQueryURL] returns. *)
Lemma RawQueryURL_is_request_URL_witness :
  RawQueryURL (H := plainLib)
    (AddBodyKV "k" "v" (AddQueryInt "limit" 10 (AddQuery "q" "a b" exRequest)))
  = Some ("https://api.example.com/v1/items?limit=10&q=a+b", None).
Proof.
  refine (RawQueryURL_is_request_URL (H := plainLib) "POST"
            (AddBodyKV "k" "v" (AddQueryInt "limit" 10 (AddQuery "q" "a b" exRequest)))
            {| Method := "POST";
               rURL := {| u_head := "https://api.example.com/v1/items";
                          ForceQuery := false; RawQuery := ""; u_frag := "" |};
               Header := ∅; rBody := Some "k=v" |} _).
  vm_compute. reflexivity.
Defined.

(** [a] then [b], or [b] then [a]: the same URL. *)
Lemma query_depends_on_values_per_key_witness :
  RawQueryURL (H := plainLib) (AddQuery "a" "1" (AddQuery "b" "x" exRequest))
  = RawQueryURL (H := plainLib) (AddQuery "b" "x" (AddQuery "a" "1" exRequest)).
Proof.
  refine (proj1 (query_depends_on_values_per_key (H := plainLib)
                   (AddQuery "a" "1" (AddQuery "b" "x" exRequest))
                   (AddQuery "b" "x" (AddQuery "a" "1" exRequest)) _ _)).
  - reflexivity.
  - intros k. cbn [AddQuery set_queries queries exRequest app addedPairs fmap
                   list_fmap key value valueData_string v_is v_s].
    rewrite !pairsOf_cons. cbn [fst].
    destruct (decide ("b" = k)) as [Hb|Hb];
      destruct (decide ("a" = k)) as [Ha|Ha];
      try reflexivity.
    rewrite <- Hb in Ha. discriminate Ha.
Defined.

(** Two body fields, added as [b] then [a]: the body is [a=1+x&b=2]. *)
Lemma genHTTPReq_form_body_witness :
  let r := AddBodyKV "a" "1 x" (AddBodyKV "b" "2" exRequest) in
  let ps := Values_pairs (addQueries (bodyKV r) ∅) in
  Some "a=1+x&b=2" = Some (String.concat "&" (encodePair <$> ps))
  /\ StronglySorted string_le ps.*1
  /\ forall k, pairsOf k ps = pairsOf k (addedPairs (bodyKV r)).
Proof.
  refine (genHTTPReq_form_body (H := plainLib) "POST"
            (AddBodyKV "a" "1 x" (AddBodyKV "b" "2" exRequest))
            "https://api.example.com/v1/items"
            {| Method := "POST";
               rURL := {| u_head := "https://api.example.com/v1/items";
                          ForceQuery := false; RawQuery := ""; u_frag := "" |};
               Header := ∅; rBody := Some "a=1+x&b=2" |} _ _ _).
  - vm_compute. reflexivity.
  - reflexivity.
  - reflexivity.
Defined.

(** A body field, then the JSON text [7], then another body field and the
    form header: the body is [7]. *)
Lemma JSON_body_wins_witness :
  rBody {| Method := "POST";
           rURL := {| u_head := "https://api.example.com/v1/items";
                      ForceQuery := false; RawQuery := ""; u_frag := "" |};
           Header := ∅; rBody := Some "7" |}
  = Some "7".
Proof.
  refine (JSON_body_wins (H := plainLib) (VInt 7) "7"
            (AddBodyKV "k" "v" exRequest)
            [@OpAddBodyKV plainLib "a" "b"; @OpFormEncoded plainLib]
            "POST" "https://api.example.com/v1/items" _ _ _ _ _).
  - reflexivity.
  - discriminate.
  - intros v' Hin.
    apply elem_of_cons in Hin as [Heq|Hin]; [discriminate Heq |].
    apply elem_of_cons in Hin as [Heq|Hin]; [discriminate Heq |].
    inversion Hin.
  - vm_compute. reflexivity.
Defined.

(** Two drafts made one after the other on the same endpoint. *)
Lemma NewRequest_drafts_independent_witness :
  exists l1 l2,
    reqOptions exRequest = Some l1 /\ reqOptions exRequest2 = Some l2
    /\ l1 <> l2
    /\ (forall w3,
          (forall l, l <> l2 ->
             heap w3 !! l = heap (exWorld2 (mkOptions 100 2) exFast) !! l) ->
          optionsOf exRequest w3
          = optionsOf exRequest (exWorld (mkOptions 100 2) exFast))
    /\ (forall l, is_Some (heap (exWorldBefore (mkOptions 100 2) exFast) !! l) ->
          heap (exWorld2 (mkOptions 100 2) exFast) !! l
          = heap (exWorldBefore (mkOptions 100 2) exFast) !! l)
    /\ calls (exWorld2 (mkOptions 100 2) exFast)
       = calls (exWorldBefore (mkOptions 100 2) exFast)
    /\ slept (exWorld2 (mkOptions 100 2) exFast)
       = slept (exWorldBefore (mkOptions 100 2) exFast).
Proof.
  apply (NewRequest_drafts_independent exEndpoint exEndpoint
           (exWorldBefore (mkOptions 100 2) exFast)
           exRequest (exWorld (mkOptions 100 2) exFast)
           exRequest2 (exWorld2 (mkOptions 100 2) exFast)).
  - vm_compute. reflexivity.
  - vm_compute. reflexivity.
Defined.
